(** * Command release: one semantic-version tag, three GitHub releases

    A shallow embedding of [release.go].  The program reads the
    environment variable GITHUB_REF_NAME, splits it into a directory
    and a version, lists the directory, asks [git] for the commit of
    the tag and calls [gh] to (re)create three releases.

    Strings are Go strings, that is byte sequences: [string] of the
    standard library, whose characters are the 256 bytes.  The outside
    world (environment, file system, subprocesses) is a state of an
    arbitrary type [W] together with three primitives that read or
    advance it; every interaction is recorded in a trace. *)

From Stdlib Require Import Strings.String Strings.Ascii Lists.List Bool.Bool.
From Stdlib Require Import Arith.Arith Arith.PeanoNat NArith.NArith Lia.
From Stdlib Require Import Sorting.Sorted Sorting.Permutation.
Import ListNotations.

Local Open Scope string_scope.
Local Open Scope list_scope.

(* ================================================================= *)
(** ** Bytes *)

Definition byte_le (a b : ascii) : bool := (N_of_ascii a <=? N_of_ascii b)%N.

(** ['0' <= c && c <= '9'] *)
Definition isDigit (c : ascii) : bool := byte_le "0" c && byte_le c "9".

Arguments byte_le : simpl never.
Arguments isDigit : simpl never.

(* ================================================================= *)
(** ** Package strings of the Go standard library *)

Module strings.

(** Modelled from the spec: [strings.Split] belongs to the Go standard
    library, whose source is not part of the repository.  [Split s sep]
    cuts [s] at every occurrence of the separator and returns the
    pieces between them, so a string with [n] separators gives [n+1]
    pieces, some of which may be empty.  The program only splits on
    the one-byte separator "/", so the separator is a byte here. *)
Fixpoint Split (s : string) (sep : ascii) : list string :=
  match s with
  | EmptyString => [EmptyString]
  | String c s' =>
      if Ascii.eqb c sep then EmptyString :: Split s' sep
      else match Split s' sep with
           | p :: ps => String c p :: ps
           | [] => [String c EmptyString]
           end
  end.

(** Modelled from the spec: the table [asciiSpace] of package strings,
    which is not part of the repository; its six bytes are tab, line
    feed, vertical tab, form feed, carriage return and space. *)
Definition asciiSpace (c : ascii) : bool :=
  Ascii.eqb c "009" || Ascii.eqb c "010" || Ascii.eqb c "011" ||
  Ascii.eqb c "012" || Ascii.eqb c "013" || Ascii.eqb c " ".

(** Modelled from the spec: the test [c >= utf8.RuneSelf] of
    [strings.TrimSpace]; the byte starts or continues a multi-byte
    rune. *)
Definition nonASCII (c : ascii) : bool := (128 <=? N_of_ascii c)%N.

Arguments asciiSpace : simpl never.
Arguments nonASCII : simpl never.

Section TrimSpace.

(** Modelled from the spec: [strings.TrimSpace] belongs to the Go
    standard library.  Its body has a fast path that scans ASCII
    bytes from both ends, which is written out below, and hands the
    string over to the Unicode-aware [TrimFunc(s, unicode.IsSpace)]
    and [TrimRightFunc(s, unicode.IsSpace)] as soon as it meets a
    byte outside ASCII.  These two stay abstract. *)
Variable TrimFunc_IsSpace : string -> string.
Variable TrimRightFunc_IsSpace : string -> string.

(** Modelled from the spec: the first loop of [strings.TrimSpace],
    which advances [start] over ASCII white space.  The result is
    [s[start:]] and whether the scan stopped on a non-ASCII byte. *)
Fixpoint TrimSpace_start (s : string) : string * bool :=
  match s with
  | EmptyString => (EmptyString, false)
  | String c s' =>
      if nonASCII c then (s, true)
      else if asciiSpace c then TrimSpace_start s'
      else (s, false)
  end.

(** Modelled from the spec: the second loop of [strings.TrimSpace],
    which moves [stop] back over ASCII white space.  The result is
    [s[:stop]] and whether the scan stopped on a non-ASCII byte. *)
Fixpoint TrimSpace_stop (s : string) : string * bool :=
  match s with
  | EmptyString => (EmptyString, false)
  | String c s' =>
      match TrimSpace_stop s' with
      | (EmptyString, _) =>
          if nonASCII c then (String c EmptyString, true)
          else if asciiSpace c then (EmptyString, false)
          else (String c EmptyString, false)
      | (r, slow) => (String c r, slow)
      end
  end.

(** Modelled from the spec: [strings.TrimSpace], the two loops one
    after the other, each leaving for the slow path when it stopped on
    a non-ASCII byte. *)
Definition TrimSpace (s : string) : string :=
  let '(s1, slow1) := TrimSpace_start s in
  if slow1 then TrimFunc_IsSpace s1
  else
    let '(s2, slow2) := TrimSpace_stop s1 in
    if slow2 then TrimRightFunc_IsSpace s2 else s2.

End TrimSpace.

End strings.

(* ================================================================= *)
(** ** Package golang.org/x/mod/semver *)

Module semver.

(** Modelled from the spec: the program imports the package
    golang.org/x/mod/semver, whose source is not part of the
    repository; the spec treats it as the three capabilities
    [IsValid], [Major] and [MajorMinor].  The definitions below follow
    the package: a version is [vMAJOR[.MINOR[.PATCH[-PRE][+BUILD]]]],
    numbers have no leading zero, and the two prefix functions return
    the empty string on an invalid version. *)
Record parsed := {
  major : string;
  minor : string;
  patch : string;
  short : string;
  prerelease : string;
  build : string
}.

(** Modelled from the spec: the scan of [parseInt] and [isBadNum] of
    package semver; the longest prefix of digits and what follows
    it. *)
Fixpoint digits (v : string) : string * string :=
  match v with
  | EmptyString => (EmptyString, EmptyString)
  | String c v' =>
      if isDigit c then let '(t, rest) := digits v' in (String c t, rest)
      else (EmptyString, v)
  end.

(** Modelled from the spec: [parseInt] of package semver; a number
    without leading zero at the start of [v], and the rest of [v]. *)
Definition parseInt (v : string) : option (string * string) :=
  match v with
  | EmptyString => None
  | String c v' =>
      if negb (isDigit c) then None
      else
        let '(t, rest) := digits v' in
        if Ascii.eqb c "0" && negb (String.eqb t EmptyString) then None
        else Some (String c t, rest)
  end.

(** Modelled from the spec: [isIdentChar] of package semver; letters,
    digits and the hyphen. *)
Definition isIdentChar (c : ascii) : bool :=
  (byte_le "A" c && byte_le c "Z") || (byte_le "a" c && byte_le c "z") ||
  (byte_le "0" c && byte_le c "9") || Ascii.eqb c "-".

(** Modelled from the spec: [isBadNum] of package semver; all digits,
    more than one, and the first is zero. *)
Definition isBadNum (v : string) : bool :=
  let '(t, rest) := digits v in
  String.eqb rest EmptyString && (1 <? String.length t)%nat &&
  match v with String c _ => Ascii.eqb c "0" | EmptyString => false end.

(** Puts the byte just read back in front of the text a loop has
    consumed. *)
Definition cons_fst (c : ascii) (r : option (string * string))
  : option (string * string) :=
  match r with
  | Some (t, rest) => Some (String c t, rest)
  | None => None
  end.

(** Modelled from the spec: the loop of [parsePrerelease] of package
    semver; [ident] is [v[start:i]], the identifier being read. *)
Fixpoint parsePrerelease_loop (ident v : string) : option (string * string) :=
  match v with
  | EmptyString =>
      if String.eqb ident EmptyString || isBadNum ident then None
      else Some (EmptyString, EmptyString)
  | String c v' =>
      if Ascii.eqb c "+" then
        if String.eqb ident EmptyString || isBadNum ident then None
        else Some (EmptyString, v)
      else if negb (isIdentChar c) && negb (Ascii.eqb c ".") then None
      else if Ascii.eqb c "." then
        if String.eqb ident EmptyString || isBadNum ident then None
        else cons_fst c (parsePrerelease_loop EmptyString v')
      else cons_fst c (parsePrerelease_loop (ident ++ String c EmptyString) v')
  end.

(** Modelled from the spec: [parsePrerelease] of package semver; a
    hyphen and dot-separated identifiers, none empty, none a number
    with a leading zero. *)
Definition parsePrerelease (v : string) : option (string * string) :=
  match v with
  | String c v' =>
      if Ascii.eqb c "-" then cons_fst c (parsePrerelease_loop EmptyString v')
      else None
  | EmptyString => None
  end.

(** Modelled from the spec: the loop of [parseBuild] of package
    semver; [empty] tells whether [start == i]. *)
Fixpoint parseBuild_loop (empty : bool) (v : string) : option (string * string) :=
  match v with
  | EmptyString => if empty then None else Some (EmptyString, EmptyString)
  | String c v' =>
      if negb (isIdentChar c) && negb (Ascii.eqb c ".") then None
      else if Ascii.eqb c "." then
        if empty then None else cons_fst c (parseBuild_loop true v')
      else cons_fst c (parseBuild_loop false v')
  end.

(** Modelled from the spec: [parseBuild] of package semver; a plus
    sign and dot-separated identifiers, none empty. *)
Definition parseBuild (v : string) : option (string * string) :=
  match v with
  | String c v' =>
      if Ascii.eqb c "+" then cons_fst c (parseBuild_loop true v') else None
  | EmptyString => None
  end.

(** [len(v) > 0 && v[0] == c] and [v[1:]]. *)
Definition starts_with (c : ascii) (v : string) : bool :=
  match v with
  | String c' _ => Ascii.eqb c' c
  | EmptyString => false
  end.

Definition tail (v : string) : string :=
  match v with
  | String _ v' => v'
  | EmptyString => EmptyString
  end.

(** Modelled from the spec: the end of [parse] of package semver,
    after the patch number; an optional pre-release, an optional build,
    and nothing more. *)
Definition parse_suffix (ma mi pa v : string) : option parsed :=
  match (if starts_with "-" v then parsePrerelease v
         else Some (EmptyString, v)) with
  | None => None
  | Some (pre, v1) =>
      match (if starts_with "+" v1 then parseBuild v1
             else Some (EmptyString, v1)) with
      | None => None
      | Some (bu, v2) =>
          if String.eqb v2 EmptyString
          then Some {| major := ma; minor := mi; patch := pa;
                       short := EmptyString;
                       prerelease := pre; build := bu |}
          else None
      end
  end.

(** Modelled from the spec: [parse] of package semver; the letter v,
    then a major number, and optionally a minor number and a patch
    number with its suffix.  A missing minor or patch number counts as
    zero. *)
Definition parse (v : string) : option parsed :=
  match v with
  | EmptyString => None
  | String c v0 =>
      if negb (Ascii.eqb c "v") then None
      else
        match parseInt v0 with
        | None => None
        | Some (ma, EmptyString) =>
            Some {| major := ma; minor := "0"; patch := "0"; short := ".0.0";
                    prerelease := EmptyString; build := EmptyString |}
        | Some (ma, v1) =>
            if negb (starts_with "." v1) then None
            else
              match parseInt (tail v1) with
              | None => None
              | Some (mi, EmptyString) =>
                  Some {| major := ma; minor := mi; patch := "0";
                          short := ".0";
                          prerelease := EmptyString; build := EmptyString |}
              | Some (mi, v2) =>
                  if negb (starts_with "." v2) then None
                  else
                    match parseInt (tail v2) with
                    | None => None
                    | Some (pa, v3) => parse_suffix ma mi pa v3
                    end
              end
        end
  end.

(** Modelled from the spec: [semver.IsValid], whether [v] parses. *)
Definition IsValid (v : string) : bool :=
  match parse v with Some _ => true | None => false end.

(** Modelled from the spec: [semver.Major], the prefix
    [v[:1+len(pv.major)]] of a valid version, as in
    major(vX.Y.Z) = vX. *)
Definition Major (v : string) : string :=
  match parse v with
  | None => EmptyString
  | Some pv => substring 0 (1 + String.length (major pv)) v
  end.

(** Modelled from the spec: [semver.MajorMinor], the prefix of a valid
    version up to its minor number, as in majorMinor(vX.Y.Z) = vX.Y;
    a missing minor number is written out as zero. *)
Definition MajorMinor (v : string) : string :=
  match parse v with
  | None => EmptyString
  | Some pv =>
      let i := 1 + String.length (major pv) in
      let j := i + 1 + String.length (minor pv) in
      if (j <=? String.length v)%nat
         && match get i v with Some c => Ascii.eqb c "." | None => false end
         && String.eqb (substring (i + 1) (j - (i + 1)) v) (minor pv)
      then substring 0 j v
      else substring 0 i v ++ "." ++ minor pv
  end.

End semver.


(* ================================================================= *)
(** ** Data of the program *)

(** What the program reads of an [os.DirEntry]. *)
Record DirEntry := {
  Name : string;
  IsDir : bool
}.

(** Go [error] values.  [External] is an error made outside the
    program (by the operating system or a subprocess); the other
    constructors are the four [fmt.Errorf] calls of the program, kept
    as their format and operands instead of the rendered text. *)
Inductive error :=
| External (text : string)
| ReadDirError (err : error)                      (* "read dir: %w" *)
| CmdOutputError (err : error) (stderr : string)  (* "cmd output: %w: %#q" *)
| GitShowRefError (err : error)                   (* "git show-ref: %w" *)
| GhReleaseCreateError (args : list string) (err : error).
                                        (* "gh release create (%#v): %w" *)

(** The two [log.Printf] lines. *)
Inductive warning :=
| SkippingDir (name : string)             (* "warn: skipping dir %q" *)
| CouldNotDeleteRelease (tag : string).   (* "warn: could not delete release %q" *)

(** The six [log.Fatalf] lines. *)
Inductive fatal :=
| MissingEnvVar                                   (* "error: missing env var GITHUB_REF_NAME" *)
| InvalidTagName (refName : string)               (* "error: invalid tag name: %v" *)
| InvalidVersion (version : string)               (* "error: invalid version: %v" *)
| ListFiles (err : error)                         (* "error: list files: %v" *)
| GetHash (err : error)                           (* "error: get hash: %v" *)
| CreateGitHubRelease (tag : string) (err : error).
                                        (* "error: create GitHub release %q: %v" *)

(** What a run does to the outside, in order: directory listings and
    subprocesses, each with what came back, and the warnings. *)
Inductive event :=
| EvReadDir (dir : string) (entries : list DirEntry) (err : option error)
| EvExec (name : string) (arg : list string)
         (stdout stderr : string) (err : option error)
| EvLog (w : warning).

(** How a computation ends: it returns, or [log.Fatalf] prints a line
    and leaves the process with status 1. *)
Inductive outcome (A : Type) :=
| Ret (a : A)
| Fatal (msg : fatal).

Arguments Ret {A} a.
Arguments Fatal {A} msg.

(** The process exit status: 0 when [main] returns, 1 after
    [log.Fatalf]. *)
Definition exit_code {A} (o : outcome A) : nat :=
  match o with
  | Ret _ => 0
  | Fatal _ => 1
  end.

(** The loop variable of [main]: the anonymous struct with fields
    [version] and [delete]. *)
Record release := {
  version : string;
  delete : bool
}.

(* ================================================================= *)
(** ** The outside world and the imported packages *)

(** The operating system as seen by the program.  [os.ReadDir] returns
    both the entries it could read and an error; [Output] of [exec.Cmd]
    returns the standard output and an error, and fills the buffer set
    as [cmd.Stderr]. *)
Record Sys (W : Type) := {
  Getenv : string -> W -> string;
  ReadDir : string -> W -> list DirEntry * option error * W;
  Output : string -> list string -> W -> string * string * option error * W
}.

Arguments Getenv {W} _ _ _.
Arguments ReadDir {W} _ _ _.
Arguments Output {W} _ _ _ _.

(** The package golang.org/x/mod/semver as the program uses it. *)
Record Semver := {
  IsValid : string -> bool;
  Major : string -> string;
  MajorMinor : string -> string
}.

(** What the program uses of the Go standard library beyond
    [strings.Split]: [filepath.Join] at two elements, and the
    Unicode-aware slow path of [strings.TrimSpace]. *)
Record Std := {
  Join : string -> string -> string;
  TrimFunc_IsSpace : string -> string;
  TrimRightFunc_IsSpace : string -> string
}.

(* ================================================================= *)
(** ** Computations *)

(** A computation reads and advances the world, and yields an outcome
    together with the events it caused. *)
Definition M (W A : Type) : Type := W -> outcome A * list event * W.

Definition ret {W A} (a : A) : M W A := fun w => (Ret a, [], w).

Definition bind {W A B} (m : M W A) (f : A -> M W B) : M W B :=
  fun w =>
    match m w with
    | (Ret a, t, w1) =>
        let '(o, t', w2) := f a w1 in (o, t ++ t', w2)
    | (Fatal msg, t, w1) => (Fatal msg, t, w1)
    end.

Definition emit {W} (e : event) : M W unit := fun w => (Ret tt, [e], w).

Declare Scope go_scope.
Delimit Scope go_scope with go.
Notation "x <- m ;; k" := (bind m (fun x => k))
  (at level 61, m at next level, right associativity) : go_scope.
Notation "' p <- m ;; k" := (bind m (fun x => match x with p => k end))
  (at level 61, p pattern, m at next level, right associativity) : go_scope.
Notation "m ;; k" := (bind m (fun _ => k))
  (at level 61, right associativity) : go_scope.

Definition run_outcome {W A} (r : outcome A * list event * W) : outcome A :=
  fst (fst r).
Definition run_trace {W A} (r : outcome A * list event * W) : list event :=
  snd (fst r).
Definition run_world {W A} (r : outcome A * list event * W) : W :=
  snd r.

(* ================================================================= *)
(** ** The program *)

Section Program.

Context {W : Type}.
Variable sys : Sys W.
Variable sv : Semver.
Variable std : Std.

Local Open Scope go_scope.

(** [os.Getenv], [os.ReadDir] and [cmd.Output] as computations. *)
Definition os_Getenv (key : string) : M W string :=
  fun w => (Ret (Getenv sys key w), [], w).

Definition os_ReadDir (dir : string) : M W (list DirEntry * option error) :=
  fun w =>
    let '(entries, err, w') := ReadDir sys dir w in
    (Ret (entries, err), [EvReadDir dir entries err], w').

Definition cmd_Output (name : string) (arg : list string)
  : M W (string * string * option error) :=
  fun w =>
    let '(out, stderr, err, w') := Output sys name arg w in
    (Ret (out, stderr, err), [EvExec name arg out stderr err], w').

Definition log_Printf (l : warning) : M W unit := emit (EvLog l).

Definition log_Fatalf {A} (msg : fatal) : M W A := fun w => (Fatal msg, [], w).

Definition TrimSpace : string -> string :=
  strings.TrimSpace (TrimFunc_IsSpace std) (TrimRightFunc_IsSpace std).

Definition execCmd (name : string) (arg : list string)
  : M W (string * option error) :=
  '(out, stderr, err) <- cmd_Output name arg ;;
  match err with
  | Some e => ret (EmptyString, Some (CmdOutputError e stderr))
  | None => ret (TrimSpace out, None)
  end.

Definition gitHash (ref : string) : M W (string * option error) :=
  '(hash, err) <- execCmd "git" ["show-ref"; "--hash"; ref] ;;
  match err with
  | Some e => ret (EmptyString, Some (GitShowRefError e))
  | None => ret (hash, None)
  end.

Definition ghRelease (tag target : string) (delete : bool)
           (files : list string) : M W (option error) :=
  (if delete then
     '(_, err) <- execCmd "gh"
                    ["release"; "delete"; "--cleanup-tag"; "--yes"; tag] ;;
     match err with
     | Some _ => log_Printf (CouldNotDeleteRelease tag)
     | None => ret tt
     end
   else ret tt) ;;
  let args := ["release"; "create"; "--target"; target; tag] ++ files in
  '(_, err) <- execCmd "gh" args ;;
  match err with
  | Some e => ret (Some (GhReleaseCreateError args e))
  | None => ret None
  end.

(** The loop of [readDir] over the entries; [files] is the slice
    built so far. *)
Fixpoint readDir_range (dir : string) (entries : list DirEntry)
         (files : list string) : M W (list string) :=
  match entries with
  | [] => ret files
  | entry :: rest =>
      if IsDir entry then
        log_Printf (SkippingDir (Name entry)) ;;
        readDir_range dir rest files
      else
        readDir_range dir rest (files ++ [Join std dir (Name entry)])
  end.

Definition readDir (dir : string) : M W (list string * option error) :=
  '(entries, err) <- os_ReadDir dir ;;
  match err with
  | Some e => ret ([], Some (ReadDirError e))
  | None =>
      files <- readDir_range dir entries [] ;;
      ret (files, None)
  end.

(** The slice literal [main] ranges over. *)
Definition releases (version : string) : list release :=
  [ {| version := Major sv version; delete := true |};
    {| version := MajorMinor sv version; delete := true |};
    {| version := version; delete := false |} ].

(** The loop of [main] over that slice. *)
Fixpoint main_range (dir hash : string) (files : list string)
         (args : list release) : M W unit :=
  match args with
  | [] => ret tt
  | arg :: rest =>
      let tag := (dir ++ "/" ++ version arg)%string in
      err <- ghRelease tag hash (delete arg) files ;;
      match err with
      | Some e => log_Fatalf (CreateGitHubRelease tag e)
      | None => main_range dir hash files rest
      end
  end.

(** [main].  The call [log.SetFlags(0)] only takes the time stamp off
    the log lines, whose text is not part of this model. *)
Definition main : M W unit :=
  refName <- os_Getenv "GITHUB_REF_NAME" ;;
  if String.eqb refName EmptyString then log_Fatalf MissingEnvVar
  else
    let parts := strings.Split refName "/" in
    if negb (length parts =? 2)%nat then log_Fatalf (InvalidTagName refName)
    else
      let dir := nth 0 parts EmptyString in
      let version := nth 1 parts EmptyString in
      if negb (IsValid sv version) then log_Fatalf (InvalidVersion version)
      else
        '(files, err) <- readDir dir ;;
        match err with
        | Some e => log_Fatalf (ListFiles e)
        | None =>
            '(hash, err) <- gitHash refName ;;
            match err with
            | Some e => log_Fatalf (GetHash e)
            | None => main_range dir hash files (releases version)
            end
        end.

End Program.

(** The package golang.org/x/mod/semver as a [Semver]. *)
Definition golang_semver : Semver := {|
  IsValid := semver.IsValid;
  Major := semver.Major;
  MajorMinor := semver.MajorMinor
|}.

(* ================================================================= *)
(** ** Reading a trace *)

(** The argument lists of the two [gh] commands. *)
Definition delete_args (tag : string) : list string :=
  ["release"; "delete"; "--cleanup-tag"; "--yes"; tag].

Definition create_args (target tag : string) (files : list string)
  : list string :=
  "release" :: "create" :: "--target" :: target :: tag :: files.

(** The subprocesses of a trace, in order: command name and
    arguments. *)
Definition exec_of (e : event) : list (string * list string) :=
  match e with
  | EvExec name arg _ _ _ => [(name, arg)]
  | _ => []
  end.

Definition execs (t : list event) : list (string * list string) :=
  flat_map exec_of t.

(** The [gh release] calls of a trace, by kind and tag. *)
Inductive gh_call :=
| Delete (tag : string)
| Create (tag : string).

Definition is_create (name : string) (arg : list string) : bool :=
  match arg with
  | a1 :: a2 :: a3 :: _ :: _ :: _ =>
      String.eqb name "gh" && String.eqb a1 "release" &&
      String.eqb a2 "create" && String.eqb a3 "--target"
  | _ => false
  end.

Definition is_delete (name : string) (arg : list string) : bool :=
  match arg with
  | [a1; a2; a3; a4; _] =>
      String.eqb name "gh" && String.eqb a1 "release" &&
      String.eqb a2 "delete" && String.eqb a3 "--cleanup-tag" &&
      String.eqb a4 "--yes"
  | _ => false
  end.

Definition gh_call_of (cmd : string * list string) : list gh_call :=
  let '(name, arg) := cmd in
  if is_create name arg then [Create (nth 4 arg EmptyString)]
  else if is_delete name arg then [Delete (nth 4 arg EmptyString)]
  else [].

Definition gh_calls (t : list event) : list gh_call :=
  flat_map gh_call_of (execs t).

(** The tags a release was created for, whatever the result. *)
Definition created_tag (cmd : string * list string) : list string :=
  let '(name, arg) := cmd in
  if is_create name arg then [nth 4 arg EmptyString] else [].

Definition created_tags (t : list event) : list string :=
  flat_map created_tag (execs t).

(** The [--target] operand of every creation. *)
Definition create_target (cmd : string * list string) : list string :=
  let '(name, arg) := cmd in
  if is_create name arg then [nth 3 arg EmptyString] else [].

Definition create_targets (t : list event) : list string :=
  flat_map create_target (execs t).

(** The tags whose creation succeeded. *)
Definition released_tag (e : event) : list string :=
  match e with
  | EvExec name arg _ _ None =>
      if is_create name arg then [nth 4 arg EmptyString] else []
  | _ => []
  end.

Definition released_tags (t : list event) : list string :=
  flat_map released_tag t.

(** The [git] subprocesses: arguments and standard output. *)
Definition git_call (e : event) : list (list string * string) :=
  match e with
  | EvExec name arg out _ _ =>
      if String.eqb name "git" then [(arg, out)] else []
  | _ => []
  end.

Definition git_calls (t : list event) : list (list string * string) :=
  flat_map git_call t.

(** Events that are a call of [gh]. *)
Definition is_gh (e : event) : Prop :=
  match e with
  | EvExec name _ _ _ _ => name = "gh"
  | _ => False
  end.

Definition prefix {A} (l1 l2 : list A) : Prop := exists k, l2 = l1 ++ k.

(** The two parts of a reference name, as [main] takes them. *)
Definition ref_dir (refName : string) : string :=
  nth 0 (strings.Split refName "/") EmptyString.

Definition ref_version (refName : string) : string :=
  nth 1 (strings.Split refName "/") EmptyString.

(** [dir + "/" + version] *)
Definition tag_of (dir version : string) : string :=
  (dir ++ "/" ++ version)%string.

(** Strings without the separator. *)
Fixpoint no_slash (s : string) : bool :=
  match s with
  | EmptyString => true
  | String c s' => negb (Ascii.eqb c "/") && no_slash s'
  end.









(** Entries in the order of their names, byte by byte. *)
Definition name_le (a b : DirEntry) : Prop :=
  String.leb (Name a) (Name b) = true.

Definition string_le (a b : string) : Prop := String.leb a b = true.

(* ================================================================= *)
(** ** The shape of a run *)

Section Runs.

Variable sv : Semver.
Variable std : Std.

(** The warnings of [readDir] and the paths it returns, for a
    listing. *)
Definition skipped (entries : list DirEntry) : list event :=
  map (fun e => EvLog (SkippingDir (Name e))) (filter IsDir entries).

Definition assets (dir : string) (entries : list DirEntry) : list string :=
  map (fun e => Join std dir (Name e))
      (filter (fun e => negb (IsDir e)) entries).

(** The three tags of a reference name, in the order of the loop. *)
Definition release_tags (refName : string) : list string :=
  [ tag_of (ref_dir refName) (Major sv (ref_version refName));
    tag_of (ref_dir refName) (MajorMinor sv (ref_version refName));
    tag_of (ref_dir refName) (ref_version refName) ].

(** The subprocesses of one [ghRelease] call and of the whole loop,
    were no creation to fail. *)
Definition release_plan (dir hash : string) (files : list string)
           (arg : release) : list (string * list string) :=
  (if delete arg then [("gh", delete_args (tag_of dir (version arg)))]
   else []) ++
  [("gh", create_args hash (tag_of dir (version arg)) files)].

Definition publish_plan (dir hash : string) (files : list string)
           (args : list release) : list (string * list string) :=
  flat_map (release_plan dir hash files) args.

(** The six subprocesses of a run that goes through. *)
Definition plan (refName hash : string) (files : list string)
  : list (string * list string) :=
  ("git", ["show-ref"; "--hash"; refName]) ::
  publish_plan (ref_dir refName) hash files
    (releases sv (ref_version refName)).

(** What [ghRelease] does before the creation. *)
Inductive pre_delete (tag : string) : bool -> list event -> Prop :=
| pd_none : pre_delete tag false []
| pd_done out stderr :
    pre_delete tag true [EvExec "gh" (delete_args tag) out stderr None]
| pd_failed out stderr e :
    pre_delete tag true
      [EvExec "gh" (delete_args tag) out stderr (Some e);
       EvLog (CouldNotDeleteRelease tag)].

(** The loop of [main]: it stops at the first creation that fails. *)
Inductive publish_run (dir hash : string) (files : list string)
  : list release -> outcome unit -> list event -> Prop :=
| pub_done : publish_run dir hash files [] (Ret tt) []
| pub_abort arg rest d out stderr e :
    pre_delete (tag_of dir (version arg)) (delete arg) d ->
    publish_run dir hash files (arg :: rest)
      (Fatal (CreateGitHubRelease (tag_of dir (version arg))
                (GhReleaseCreateError
                   (create_args hash (tag_of dir (version arg)) files)
                   (CmdOutputError e stderr))))
      (d ++ [EvExec "gh" (create_args hash (tag_of dir (version arg)) files)
               out stderr (Some e)])
| pub_next arg rest d out stderr o t :
    pre_delete (tag_of dir (version arg)) (delete arg) d ->
    publish_run dir hash files rest o t ->
    publish_run dir hash files (arg :: rest) o
      (d ++ EvExec "gh" (create_args hash (tag_of dir (version arg)) files)
              out stderr None :: t).

(** A whole run, for the value of GITHUB_REF_NAME. *)
Inductive main_run (refName : string) : outcome unit -> list event -> Prop :=
| run_missing :
    refName = EmptyString ->
    main_run refName (Fatal MissingEnvVar) []
| run_tag_name :
    refName <> EmptyString ->
    length (strings.Split refName "/") <> 2 ->
    main_run refName (Fatal (InvalidTagName refName)) []
| run_version :
    refName <> EmptyString ->
    length (strings.Split refName "/") = 2 ->
    IsValid sv (ref_version refName) = false ->
    main_run refName (Fatal (InvalidVersion (ref_version refName))) []
| run_list entries e :
    refName <> EmptyString ->
    length (strings.Split refName "/") = 2 ->
    IsValid sv (ref_version refName) = true ->
    main_run refName (Fatal (ListFiles (ReadDirError e)))
      [EvReadDir (ref_dir refName) entries (Some e)]
| run_hash entries out stderr e :
    refName <> EmptyString ->
    length (strings.Split refName "/") = 2 ->
    IsValid sv (ref_version refName) = true ->
    main_run refName
      (Fatal (GetHash (GitShowRefError (CmdOutputError e stderr))))
      (EvReadDir (ref_dir refName) entries None :: skipped entries ++
       [EvExec "git" ["show-ref"; "--hash"; refName] out stderr (Some e)])
| run_publish entries out stderr o t :
    refName <> EmptyString ->
    length (strings.Split refName "/") = 2 ->
    IsValid sv (ref_version refName) = true ->
    publish_run (ref_dir refName) (TrimSpace std out)
      (assets (ref_dir refName) entries)
      (releases sv (ref_version refName)) o t ->
    main_run refName o
      (EvReadDir (ref_dir refName) entries None :: skipped entries ++
       EvExec "git" ["show-ref"; "--hash"; refName] out stderr None :: t).

End Runs.

(* ================================================================= *)
(** ** A small world to run the program in *)

Module Hub.

(** The value of GITHUB_REF_NAME, the directories of the working
    directory, the tags of the repository with their commits, the
    releases that exist, and those of them that may not be deleted. *)
Record hub := {
  ref_name : string;
  dirs : list (string * list DirEntry);
  commits : list (string * string);
  released : list string;
  locked : list string
}.

Fixpoint lookup {A} (k : string) (l : list (string * A)) : option A :=
  match l with
  | [] => None
  | (k', a) :: l' => if String.eqb k k' then Some a else lookup k l'
  end.

Definition mem (k : string) (l : list string) : bool :=
  existsb (String.eqb k) l.

Definition remove (k : string) (l : list string) : list string :=
  filter (fun k' => negb (String.eqb k k')) l.

Definition with_released (w : hub) (r : list string) : hub :=
  {| ref_name := ref_name w; dirs := dirs w; commits := commits w;
     released := r; locked := locked w |}.

Definition exit_status_1 : option error := Some (External "exit status 1").

Definition getenv (key : string) (w : hub) : string :=
  if String.eqb key "GITHUB_REF_NAME" then ref_name w else EmptyString.

Definition readdir (dir : string) (w : hub)
  : list DirEntry * option error * hub :=
  match lookup dir (dirs w) with
  | Some entries => (entries, None, w)
  | None => ([], Some (External "no such file or directory"), w)
  end.

Definition git (arg : list string) (w : hub)
  : string * string * option error * hub :=
  match arg with
  | [a1; a2; ref] =>
      if String.eqb a1 "show-ref" && String.eqb a2 "--hash" then
        match lookup ref (commits w) with
        | Some h => ((h ++ String "010" EmptyString)%string, EmptyString, None, w)
        | None => (EmptyString, EmptyString, exit_status_1, w)
        end
      else (EmptyString, "usage", exit_status_1, w)
  | _ => (EmptyString, "usage", exit_status_1, w)
  end.

Definition gh (arg : list string) (w : hub)
  : string * string * option error * hub :=
  if is_create "gh" arg then
    let tag := nth 4 arg EmptyString in
    if mem tag (released w)
    then (EmptyString, "a release with the same tag name already exists",
          exit_status_1, w)
    else (EmptyString, EmptyString, None, with_released w (tag :: released w))
  else if is_delete "gh" arg then
    let tag := nth 4 arg EmptyString in
    if mem tag (released w) && negb (mem tag (locked w))
    then (EmptyString, EmptyString, None,
          with_released w (remove tag (released w)))
    else (EmptyString, "release not found", exit_status_1, w)
  else (EmptyString, "usage", exit_status_1, w).

Definition output (name : string) (arg : list string) (w : hub)
  : string * string * option error * hub :=
  if String.eqb name "git" then git arg w
  else if String.eqb name "gh" then gh arg w
  else (EmptyString, EmptyString, Some (External "executable file not found"), w).

Definition sys : Sys hub := {|
  Getenv := getenv;
  ReadDir := readdir;
  Output := output
|}.

(** Stands in for the standard library on clean directory names, plain
    file names and ASCII output. *)
Definition std : Std := {|
  Join := fun dir name => (dir ++ "/" ++ name)%string;
  TrimFunc_IsSpace := fun s => s;
  TrimRightFunc_IsSpace := fun s => s
|}.

(** The scenario of the specification: the tag widgets/v2.3.1, two
    files and a subdirectory in widgets/, no release yet. *)
Definition widgets : hub := {|
  ref_name := "widgets/v2.3.1";
  dirs := [("widgets",
            [ {| Name := "a.tar.gz"; IsDir := false |};
              {| Name := "b.tar.gz"; IsDir := false |};
              {| Name := "docs"; IsDir := true |} ])];
  commits := [("widgets/v2.3.1", "3f2a9c1")];
  released := [];
  locked := []
|}.

(** The same, except that the release widgets/v2.3 exists and may not
    be deleted. *)
Definition widgets_locked : hub := {|
  ref_name := ref_name widgets;
  dirs := dirs widgets;
  commits := commits widgets;
  released := ["widgets/v2.3"];
  locked := ["widgets/v2.3"]
|}.

(** A tag without the leading "v" of a version, and a tag without a
    component. *)
Definition checktypes : hub := {|
  ref_name := "checktypes/1.2.3";
  dirs := [("checktypes", [ {| Name := "checktypes"; IsDir := false |} ])];
  commits := [("checktypes/1.2.3", "9d0e4b7")];
  released := [];
  locked := []
|}.

(** Nothing but a reference name. *)
Definition bare (name : string) : hub := {|
  ref_name := name;
  dirs := [];
  commits := [];
  released := [];
  locked := []
|}.

Definition no_component : hub := {|
  ref_name := "/v1.2.3";
  dirs := [];
  commits := [("/v1.2.3", "9d0e4b7")];
  released := [];
  locked := []
|}.

Definition run (w : hub) : outcome unit * list event * hub :=
  main sys golang_semver std w.

End Hub.

(* ================================================================= *)
(** ** The format check as the specification words it *)

(** The Input Resolver would fail with the format error, before
    anything else runs, unless the reference name splits on "/" into
    exactly two parts that are both non-empty. *)
Definition format_error_unless_two_nonempty_parts
           {W} (sys : Sys W) (sv : Semver) (std : Std) (w : W) : Prop :=
  let refName := Getenv sys "GITHUB_REF_NAME" w in
  ~ (exists dir version,
        strings.Split refName "/" = [dir; version] /\
        dir <> EmptyString /\ version <> EmptyString) ->
  run_outcome (main sys sv std w) = Fatal (InvalidTagName refName) /\
  run_trace (main sys sv std w) = [].


(* ================================================================= *)
(** ** More readings of a trace *)

(** The file operands of every creation: what follows the tag. *)
Definition create_files_of (cmd : string * list string)
  : list (list string) :=
  let '(name, arg) := cmd in
  if is_create name arg then [skipn 5 arg] else [].

Definition create_files (t : list event) : list (list string) :=
  flat_map create_files_of (execs t).

(** The directories listed, and the warnings logged. *)
Definition listed_dir (e : event) : list string :=
  match e with
  | EvReadDir dir _ _ => [dir]
  | _ => []
  end.

Definition listed_dirs (t : list event) : list string :=
  flat_map listed_dir t.

Definition warning_of (e : event) : list warning :=
  match e with
  | EvLog w => [w]
  | _ => []
  end.

Definition warnings (t : list event) : list warning :=
  flat_map warning_of t.

(** Events that are a call of [git], and the events the loop of [main]
    can cause: calls of [gh] and warnings about a delete. *)
Definition is_git (e : event) : Prop :=
  match e with
  | EvExec name _ _ _ _ => name = "git"
  | _ => False
  end.

Definition loop_event (e : event) : Prop :=
  match e with
  | EvExec name _ _ _ _ => name = "gh"
  | EvLog (CouldNotDeleteRelease _) => True
  | _ => False
  end.

(** The scenario of the specification with a tag that [git] does not
    know. *)
Definition widgets_untagged : Hub.hub := {|
  Hub.ref_name := "widgets/v2.3.1";
  Hub.dirs := Hub.dirs Hub.widgets;
  Hub.commits := [];
  Hub.released := [];
  Hub.locked := []
|}.

(* ================================================================= *)
(** ** What the outside answers *)

(** The error of a subprocess started in the state [w]. *)
Definition exec_err {W} (sys : Sys W) (name : string) (arg : list string)
           (w : W) : option error :=
  snd (fst (Output sys name arg w)).

(** Worlds in which, in every state, the directory can be listed, [git]
    resolves the reference name, every creation succeeds, every delete
    fails, every delete succeeds. *)
Definition listing_ok {W} (sys : Sys W) (dir : string) : Prop :=
  forall w, snd (fst (ReadDir sys dir w)) = None.

Definition git_ok {W} (sys : Sys W) (refName : string) : Prop :=
  forall w, exec_err sys "git" ["show-ref"; "--hash"; refName] w = None.

Definition creates_ok {W} (sys : Sys W) : Prop :=
  forall w target tag files,
    exec_err sys "gh" (create_args target tag files) w = None.

Definition deletes_fail {W} (sys : Sys W) : Prop :=
  forall w tag, exec_err sys "gh" (delete_args tag) w <> None.

Definition deletes_ok {W} (sys : Sys W) : Prop :=
  forall w tag, exec_err sys "gh" (delete_args tag) w = None.

(** An event is genuine when the outside really gave that answer in
    some state. *)
Definition genuine {W} (sys : Sys W) (e : event) : Prop :=
  match e with
  | EvReadDir dir entries err =>
      exists w w', ReadDir sys dir w = (entries, err, w')
  | EvExec name arg out stderr err =>
      exists w w', Output sys name arg w = (out, stderr, err, w')
  | EvLog _ => True
  end.

(** The tags of the warnings about a delete. *)
Definition delete_warning (e : event) : list string :=
  match e with
  | EvLog (CouldNotDeleteRelease tag) => [tag]
  | _ => []
  end.

Definition delete_warnings (t : list event) : list string :=
  flat_map delete_warning t.

(* ================================================================= *)
(** ** A calm world *)

Module Calm.

(** A first publication: the directory can always be listed, [git]
    knows the tag, no release exists yet, so that every delete fails
    and every creation succeeds.  The world has no state. *)
Record setting := {
  ref_name : string;
  listing : list DirEntry;
  commit : string
}.

Definition output (s : setting) (name : string) (arg : list string)
  : string * string * option error * unit :=
  if String.eqb name "git"
  then ((commit s ++ String "010" EmptyString)%string, EmptyString, None, tt)
  else if is_create name arg then (EmptyString, EmptyString, None, tt)
  else (EmptyString, "release not found",
        Some (External "exit status 1"), tt).

Definition sys (s : setting) : Sys unit := {|
  Getenv := fun key _ =>
    if String.eqb key "GITHUB_REF_NAME" then ref_name s else EmptyString;
  ReadDir := fun _ _ => (listing s, None, tt);
  Output := fun name arg _ => output s name arg
|}.

Definition widgets : setting := {|
  ref_name := "widgets/v2.3.1";
  listing := [ {| Name := "a.tar.gz"; IsDir := false |};
               {| Name := "b.tar.gz"; IsDir := false |};
               {| Name := "docs"; IsDir := true |} ];
  commit := "3f2a9c1"
|}.

End Calm.


(* ================================================================= *)
(** ** Three claims as the specification words them *)




(* ================================================================= *)
(** ** Every run has the shape above *)

Section Soundness.

Context {W : Type}.
Variable sys : Sys W.
Variable sv : Semver.
Variable std : Std.

Lemma readDir_range_run dir entries : forall files (w : W),
  readDir_range std dir entries files w
  = (Ret (files ++ assets std dir entries), skipped entries, w).
Proof.
  induction entries as [|entry rest IH]; intros files w.
  - cbn. now rewrite app_nil_r.
  - cbn [readDir_range]. unfold assets, skipped. cbn [filter].
    destruct (IsDir entry); cbn [negb map].
    + unfold bind, log_Printf, emit. rewrite IH. reflexivity.
    + rewrite IH. unfold assets. now rewrite <- app_assoc.
Qed.

Lemma readDir_run dir w :
  readDir sys std dir w
  = let '(entries, err, w') := ReadDir sys dir w in
    match err with
    | Some e =>
        (Ret ([], Some (ReadDirError e)), [EvReadDir dir entries err], w')
    | None =>
        (Ret (assets std dir entries, None),
         EvReadDir dir entries None :: skipped entries, w')
    end.
Proof.
  unfold readDir, bind, os_ReadDir.
  destruct (ReadDir sys dir w) as [[entries err] w'].
  destruct err as [e|]; cbn.
  - reflexivity.
  - rewrite readDir_range_run. cbn. now rewrite app_nil_r.
Qed.

Lemma execCmd_run name arg w :
  execCmd sys std name arg w
  = let '(out, stderr, err, w') := Output sys name arg w in
    (Ret match err with
         | Some e => (EmptyString, Some (CmdOutputError e stderr))
         | None => (TrimSpace std out, None)
         end,
     [EvExec name arg out stderr err], w').
Proof.
  unfold execCmd, bind, cmd_Output.
  destruct (Output sys name arg w) as [[[out stderr] err] w'].
  destruct err; reflexivity.
Qed.

Lemma gitHash_run ref w :
  gitHash sys std ref w
  = let '(out, stderr, err, w') :=
      Output sys "git" ["show-ref"; "--hash"; ref] w in
    (Ret match err with
         | Some e =>
             (EmptyString, Some (GitShowRefError (CmdOutputError e stderr)))
         | None => (TrimSpace std out, None)
         end,
     [EvExec "git" ["show-ref"; "--hash"; ref] out stderr err], w').
Proof.
  unfold gitHash, bind. rewrite execCmd_run.
  destruct (Output sys "git" _ w) as [[[out stderr] err] w'].
  destruct err; reflexivity.
Qed.

Lemma ghRelease_run tag target del files w :
  exists d out stderr err w',
    pre_delete tag del d /\
    ghRelease sys std tag target del files w
    = (Ret match err with
           | Some e =>
               Some (GhReleaseCreateError (create_args target tag files)
                       (CmdOutputError e stderr))
           | None => None
           end,
       d ++ [EvExec "gh" (create_args target tag files) out stderr err],
       w').
Proof.
  unfold ghRelease. destruct del.
  - unfold bind at 1 2. rewrite execCmd_run.
    destruct (Output sys "gh" (delete_args tag) w)
      as [[[o1 s1] e1] w1] eqn:Hdel.
    unfold delete_args in Hdel. rewrite Hdel.
    destruct e1 as [e1|].
    + unfold log_Printf, emit, bind. rewrite execCmd_run.
      destruct (Output sys "gh" _ w1) as [[[o2 s2] e2] w2].
      exists [EvExec "gh" (delete_args tag) o1 s1 (Some e1);
              EvLog (CouldNotDeleteRelease tag)], o2, s2, e2, w2.
      split; [constructor|]. destruct e2; reflexivity.
    + unfold ret, bind. rewrite execCmd_run.
      destruct (Output sys "gh" _ w1) as [[[o2 s2] e2] w2].
      exists [EvExec "gh" (delete_args tag) o1 s1 None], o2, s2, e2, w2.
      split; [constructor|]. destruct e2; reflexivity.
  - unfold ret, bind. rewrite execCmd_run.
    destruct (Output sys "gh" _ w) as [[[o2 s2] e2] w2].
    exists [], o2, s2, e2, w2.
    split; [constructor|]. destruct e2; reflexivity.
Qed.

Lemma main_range_run dir hash files args : forall w,
  publish_run dir hash files args
    (run_outcome (main_range sys std dir hash files args w))
    (run_trace (main_range sys std dir hash files args w)).
Proof.
  induction args as [|arg rest IH]; intros w.
  - constructor.
  - cbn [main_range]. change (dir ++ "/" ++ version arg)%string
      with (tag_of dir (version arg)).
    unfold bind.
    destruct (ghRelease_run (tag_of dir (version arg)) hash (delete arg)
                files w) as (d & out & stderr & err & w' & Hd & ->).
    destruct err as [e|].
    + cbn. rewrite app_nil_r. apply pub_abort with (1 := Hd).
    + specialize (IH w').
      destruct (main_range sys std dir hash files rest w')
        as [[o t] w2].
      cbn in *. rewrite <- app_assoc. cbn.
      now apply pub_next.
Qed.

Theorem main_sound w :
  main_run sv std (Getenv sys "GITHUB_REF_NAME" w)
    (run_outcome (main sys sv std w)) (run_trace (main sys sv std w)).
Proof.
  unfold main, bind, os_Getenv, log_Fatalf.
  change (nth 0 (strings.Split (Getenv sys "GITHUB_REF_NAME" w) "/")
            EmptyString) with (ref_dir (Getenv sys "GITHUB_REF_NAME" w)).
  change (nth 1 (strings.Split (Getenv sys "GITHUB_REF_NAME" w) "/")
            EmptyString) with (ref_version (Getenv sys "GITHUB_REF_NAME" w)).
  generalize (Getenv sys "GITHUB_REF_NAME" w); intros refName.
  destruct (String.eqb refName EmptyString) eqn:Hempty.
  { apply String.eqb_eq in Hempty. now constructor. }
  apply String.eqb_neq in Hempty.
  destruct (length (strings.Split refName "/") =? 2)%nat eqn:Hparts;
    cbn [negb].
  2:{ apply Nat.eqb_neq in Hparts. now constructor. }
  apply Nat.eqb_eq in Hparts.
  destruct (IsValid sv (ref_version refName)) eqn:Hvalid; cbn [negb].
  2:{ now constructor. }
  rewrite readDir_run.
  destruct (ReadDir sys (ref_dir refName) w) as [[entries err] w1].
  destruct err as [e|].
  { now constructor. }
  rewrite gitHash_run.
  destruct (Output sys "git" _ w1) as [[[out stderr] err] w2].
  destruct err as [e|].
  { unfold run_outcome, run_trace; cbn [fst snd app].
    now apply run_hash. }
  pose proof (main_range_run (ref_dir refName) (TrimSpace std out)
                (assets std (ref_dir refName) entries)
                (releases sv (ref_version refName)) w2) as Hpub.
  destruct (main_range sys std _ _ _ _ w2) as [[o t] w3].
  unfold run_outcome, run_trace in *; cbn [fst snd app] in *.
  now apply run_publish.
Qed.

End Soundness.

(* ================================================================= *)
(** ** Lists and traces *)

Lemma prefix_nil {A} (l : list A) : prefix [] l.
Proof. now exists l. Qed.

Lemma prefix_cons {A} (a : A) l1 l2 : prefix l1 l2 -> prefix (a :: l1) (a :: l2).
Proof. intros [k ->]. now exists k. Qed.

Lemma prefix_app {A} (l l1 l2 : list A) :
  prefix l1 l2 -> prefix (l ++ l1) (l ++ l2).
Proof. intros [k ->]. exists k. now rewrite app_assoc. Qed.

(** Where an event sits in [a ++ b] when nothing of its kind is in
    [a]. *)
Lemma split_after {A} (P : A -> Prop) (a b pre post : list A) e :
  Forall (fun x => ~ P x) a -> P e ->
  a ++ b = pre ++ e :: post ->
  exists pre', pre = a ++ pre' /\ b = pre' ++ e :: post.
Proof.
  intros Ha He. revert pre.
  induction Ha as [|x a Hx Ha IH]; intros pre Heq.
  - now exists pre.
  - destruct pre as [|y pre]; cbn in Heq; injection Heq as -> Heq.
    + contradiction.
    + destruct (IH _ Heq) as (pre' & -> & ->). now exists pre'.
Qed.

Section Projections.

Variables (A : Type) (f : event -> list A).

Lemma flat_map_skipped entries :
  (forall w, f (EvLog w) = []) -> flat_map f (skipped entries) = [].
Proof.
  intros Hf. unfold skipped.
  induction (filter IsDir entries) as [|e l IH]; cbn; [easy|].
  now rewrite Hf.
Qed.

End Projections.

(* ================================================================= *)
(** ** The order of strings *)

Lemma ascii_compare_refl a : Ascii.compare a a = Eq.
Proof. unfold Ascii.compare. apply N.compare_refl. Qed.

Lemma ascii_compare_lt_trans a b c :
  Ascii.compare a b = Lt -> Ascii.compare b c = Lt -> Ascii.compare a c = Lt.
Proof.
  unfold Ascii.compare. rewrite !N.compare_lt_iff. apply N.lt_trans.
Qed.

Lemma string_compare_lt_trans a : forall b c,
  String.compare a b = Lt -> String.compare b c = Lt -> String.compare a c = Lt.
Proof.
  induction a as [|x a IH]; intros [|y b] [|z c]; cbn; try easy.
  destruct (Ascii.compare x y) eqn:Hxy; try easy;
    destruct (Ascii.compare y z) eqn:Hyz; try easy.
  - apply Ascii.compare_eq_iff in Hxy, Hyz. subst.
    rewrite ascii_compare_refl. apply IH.
  - apply Ascii.compare_eq_iff in Hxy. subst. now rewrite Hyz.
  - apply Ascii.compare_eq_iff in Hyz. subst. now rewrite Hxy.
  - now rewrite (ascii_compare_lt_trans _ _ _ Hxy Hyz).
Qed.

Lemma string_le_trans a b c : string_le a b -> string_le b c -> string_le a c.
Proof.
  unfold string_le, String.leb. intros Hab Hbc.
  destruct (String.compare a b) eqn:Eab; try discriminate.
  - apply String.compare_eq_iff in Eab. now subst.
  - destruct (String.compare b c) eqn:Ebc; try discriminate.
    + apply String.compare_eq_iff in Ebc. subst. now rewrite Eab.
    + now rewrite (string_compare_lt_trans _ _ _ Eab Ebc).
Qed.

Lemma name_le_trans a b c : name_le a b -> name_le b c -> name_le a c.
Proof. apply string_le_trans. Qed.

Lemma StronglySorted_filter {A} (R : A -> A -> Prop) p l :
  StronglySorted R l -> StronglySorted R (filter p l).
Proof.
  induction 1 as [|a l Hl IH Ha]; cbn; [constructor|].
  destruct (p a); [|assumption].
  constructor; [assumption|].
  apply Forall_forall. intros x Hx. apply filter_In in Hx.
  rewrite Forall_forall in Ha. now apply Ha.
Qed.

Lemma StronglySorted_map_name l :
  StronglySorted name_le l -> StronglySorted string_le (map Name l).
Proof.
  induction 1 as [|a l Hl IH Ha]; cbn; constructor; [assumption|].
  apply Forall_forall. intros x Hx. apply in_map_iff in Hx.
  destruct Hx as (e & <- & He). rewrite Forall_forall in Ha. now apply Ha.
Qed.

Lemma Permutation_filter_dir (p : DirEntry -> bool) l1 l2 :
  Permutation l1 l2 -> Permutation (filter p l1) (filter p l2).
Proof.
  induction 1 as [|x l1 l2 H IH|x y l|l1 l2 l3 H12 IH12 H23 IH23]; cbn.
  - constructor.
  - destruct (p x); [now constructor|assumption].
  - destruct (p x), (p y); try reflexivity. constructor.
  - now transitivity (filter p l2).
Qed.

(** Two sorted lists with the same elements are the same list. *)
Lemma sorted_permutation_eq l1 : forall l2,
  StronglySorted string_le l1 -> StronglySorted string_le l2 ->
  Permutation l1 l2 -> l1 = l2.
Proof.
  induction l1 as [|a l1 IH]; intros l2 H1 H2 HP.
  - now apply Permutation_nil in HP.
  - destruct l2 as [|b l2].
    { apply Permutation_sym, Permutation_nil in HP. discriminate. }
    inversion H1 as [|? ? H1' Ha]; inversion H2 as [|? ? H2' Hb]; subst.
    assert (a = b) as <-.
    { rewrite Forall_forall in Ha, Hb.
      assert (In a (b :: l2)) as [->|Hin]
          by (apply (Permutation_in _ HP); now left); [reflexivity|].
      assert (In b (a :: l1)) as [->|Hin']
          by (apply (Permutation_in _ (Permutation_sym HP)); now left);
        [reflexivity|].
      apply String.leb_antisym; [now apply Ha | now apply Hb]. }
    f_equal. apply IH; try assumption.
    now apply Permutation_cons_inv in HP.
Qed.

(* ================================================================= *)
(** ** Splitting a reference name *)

Lemma Split_not_nil s sep : strings.Split s sep <> [].
Proof.
  destruct s as [|c s]; cbn; [easy|].
  destruct (Ascii.eqb c sep); [easy|].
  now destruct (strings.Split s sep).
Qed.

Lemma Split_no_slash s : no_slash s = true -> strings.Split s "/" = [s].
Proof.
  induction s as [|c s IH]; cbn; [easy|].
  intros H. apply andb_true_iff in H as [Hc Hs].
  apply negb_true_iff in Hc. rewrite Hc, (IH Hs). reflexivity.
Qed.

Lemma Split_slash a b :
  no_slash a = true ->
  strings.Split (a ++ String "/" b) "/" = a :: strings.Split b "/".
Proof.
  induction a as [|c a IH]; cbn; [easy|].
  intros H. apply andb_true_iff in H as [Hc Ha].
  apply negb_true_iff in Hc. rewrite Hc, (IH Ha). reflexivity.
Qed.

(** A reference name splits in two exactly when it has one "/". *)
Lemma Split_two s :
  length (strings.Split s "/") = 2 <->
  exists a b, s = (a ++ String "/" b)%string /\
              no_slash a = true /\ no_slash b = true.
Proof.
  split.
  - intros H.
    assert (forall t n, length (strings.Split t "/") = S n ->
              (n = 0 /\ no_slash t = true) \/
              exists a b, t = (a ++ String "/" b)%string /\ no_slash a = true /\
                          length (strings.Split b "/") = n) as Hgen.
    { induction t as [|c t IH]; intros n Hn; cbn in Hn.
      - left. split; [congruence|reflexivity].
      - destruct (Ascii.eqb c "/") eqn:Hc.
        + apply Ascii.eqb_eq in Hc. subst c. right.
          exists EmptyString, t. cbn in *. repeat split. congruence.
        + destruct (strings.Split t "/") as [|p ps] eqn:Hsplit.
          { now apply Split_not_nil in Hsplit. }
          destruct (IH n Hn) as [[-> Ht]|(a & b & -> & Ha & Hb)].
          * left. cbn. now rewrite Hc, Ht.
          * right. exists (String c a), b. cbn. now rewrite Hc, Ha. }
    destruct (Hgen s 1 H) as [[Hn _]|(a & b & -> & Ha & Hb)]; [discriminate|].
    exists a, b. repeat split; try assumption.
    destruct (Hgen b 0 Hb) as [[_ Hb']|(a' & b' & _ & _ & Hb')];
      [assumption|].
    destruct (strings.Split b' "/") eqn:E; [|discriminate].
    now apply Split_not_nil in E.
  - intros (a & b & -> & Ha & Hb).
    now rewrite (Split_slash _ _ Ha), (Split_no_slash _ Hb).
Qed.

Lemma ref_parts a b :
  no_slash a = true -> no_slash b = true ->
  length (strings.Split (a ++ String "/" b) "/") = 2 /\
  ref_dir (a ++ String "/" b) = a /\ ref_version (a ++ String "/" b) = b.
Proof.
  intros Ha Hb. unfold ref_dir, ref_version.
  now rewrite (Split_slash _ _ Ha), (Split_no_slash _ Hb).
Qed.




(* ================================================================= *)
(** ** Versions of the form vX.Y.Z *)











(* ================================================================= *)
(** ** Trimming ASCII output *)

Section TrimSpaceFacts.

Variables f g : string -> string.




End TrimSpaceFacts.

(* ================================================================= *)
(** ** The subprocesses of a run *)

Lemma prefix_flat_map {A B} (g : A -> list B) l1 l2 :
  prefix l1 l2 -> prefix (flat_map g l1) (flat_map g l2).
Proof. intros [k ->]. exists (flat_map g k). apply flat_map_app. Qed.

Lemma execs_app a b : execs (a ++ b) = execs a ++ execs b.
Proof. apply flat_map_app. Qed.

Lemma execs_skipped entries : execs (skipped entries) = [].
Proof. now apply flat_map_skipped. Qed.

Lemma pre_delete_execs tag del d :
  pre_delete tag del d ->
  execs d = if del then [("gh", delete_args tag)] else [].
Proof. now destruct 1. Qed.

Section RunFacts.

Variable sv : Semver.
Variable std : Std.

Lemma publish_execs dir hash files args o t :
  publish_run dir hash files args o t ->
  prefix (execs t) (publish_plan dir hash files args) /\
  (o = Ret tt -> execs t = publish_plan dir hash files args).
Proof.
  induction 1 as [|arg rest d out stderr e Hd
                  |arg rest d out stderr o t Hd Hrun [IH1 IH2]].
  - split; [apply prefix_nil|reflexivity].
  - split; [|discriminate].
    rewrite execs_app, (pre_delete_execs _ _ _ Hd).
    cbn [publish_plan flat_map]. unfold release_plan at 1.
    cbn [execs flat_map exec_of app]. rewrite <- app_assoc.
    apply prefix_app. cbn [app]. apply prefix_cons, prefix_nil.
  - rewrite execs_app, (pre_delete_execs _ _ _ Hd).
    cbn [publish_plan flat_map]. unfold release_plan at 1 3.
    change (execs (?e :: t)) with (exec_of e ++ execs t).
    cbn [exec_of]. rewrite <- !app_assoc. cbn [app].
    split.
    + apply prefix_app. now apply prefix_cons.
    + intros Ho. now rewrite (IH2 Ho).
Qed.

Lemma publish_git_calls dir hash files args o t :
  publish_run dir hash files args o t -> git_calls t = [].
Proof.
  assert (forall tag del d, pre_delete tag del d -> git_calls d = [])
    as Hnone by now destruct 1.
  assert (forall a b, git_calls (a ++ b) = git_calls a ++ git_calls b)
    as Happ by (intros; apply flat_map_app).
  induction 1 as [|arg rest d out stderr e Hd
                  |arg rest d out stderr o t Hd Hrun IH];
    [reflexivity|..]; rewrite Happ, (Hnone _ _ _ Hd);
    [reflexivity|exact IH].
Qed.

Lemma git_calls_skipped entries : git_calls (skipped entries) = [].
Proof. now apply flat_map_skipped. Qed.

Lemma main_execs refName o t :
  main_run sv std refName o t ->
  exists out entries,
    prefix (execs t)
      (plan sv refName (TrimSpace std out)
         (assets std (ref_dir refName) entries)) /\
    (o = Ret tt ->
     execs t = plan sv refName (TrimSpace std out)
                 (assets std (ref_dir refName) entries)) /\
    (execs t = [] \/
     git_calls t = [(["show-ref"; "--hash"; refName], out)]).
Proof.
  destruct 1 as [H|H1 H2|H1 H2 H3|entries e H1 H2 H3
                 |entries out stderr e H1 H2 H3
                 |entries out stderr o t H1 H2 H3 Hpub].
  1-4: exists EmptyString, []; split; [apply prefix_nil|];
    split; [discriminate|now left].
  - exists out, entries.
    change (EvReadDir (ref_dir refName) entries None :: skipped entries ++
            [EvExec "git" ["show-ref"; "--hash"; refName] out stderr (Some e)])
      with ([EvReadDir (ref_dir refName) entries None] ++ skipped entries ++
            [EvExec "git" ["show-ref"; "--hash"; refName] out stderr (Some e)]).
    unfold git_calls. rewrite !execs_app, !flat_map_app, execs_skipped.
    fold (git_calls (skipped entries)). rewrite git_calls_skipped.
    split; [apply prefix_cons, prefix_nil|].
    split; [discriminate|now right].
  - exists out, entries.
    destruct (publish_execs _ _ _ _ _ _ Hpub) as [P1 P2].
    change (EvReadDir (ref_dir refName) entries None :: skipped entries ++
            EvExec "git" ["show-ref"; "--hash"; refName] out stderr None :: t)
      with ([EvReadDir (ref_dir refName) entries None] ++ skipped entries ++
            [EvExec "git" ["show-ref"; "--hash"; refName] out stderr None]
            ++ t).
    unfold git_calls. rewrite !execs_app, !flat_map_app, execs_skipped.
    fold (git_calls (skipped entries)) (git_calls t).
    rewrite git_calls_skipped, (publish_git_calls _ _ _ _ _ _ Hpub).
    split; [now apply prefix_cons|].
    split; [|now right].
    intros Ho. cbn. now rewrite (P2 Ho).
Qed.

End RunFacts.

(* ================================================================= *)
(** ** The Release Publisher *)


(** The tags a run creates releases for, whatever [semver] is. *)
Lemma main_created_tags W (sys : Sys W) sv std (w : W) :
  let r := main sys sv std w in
  let tags := release_tags sv (Getenv sys "GITHUB_REF_NAME" w) in
  prefix (created_tags (run_trace r)) tags /\
  (run_outcome r = Ret tt -> created_tags (run_trace r) = tags).
Proof.
  intros r tags.
  destruct (main_execs _ _ _ _ _ (main_sound sys sv std w))
    as (out & entries & Hpre & Hall & _).
  fold r in Hpre, Hall.
  assert (forall hash files,
            flat_map created_tag
              (plan sv (Getenv sys "GITHUB_REF_NAME" w) hash files)
            = tags) as Hplan by reflexivity.
  split.
  - rewrite <- (Hplan (TrimSpace std out)
                  (assets std (ref_dir (Getenv sys "GITHUB_REF_NAME" w))
                     entries)).
    now apply prefix_flat_map.
  - intros Hok. unfold created_tags. now rewrite (Hall Hok).
Qed.

(** C10.  A run that ends well has run six subprocesses: [git
    show-ref], then delete and create for the major tag, delete and
    create for the major.minor tag, and create for the exact tag. *)
Theorem successful_run_six_subprocesses :
  forall W (sys : Sys W) (sv : Semver) (std : Std) (w : W),
    run_outcome (main sys sv std w) = Ret tt ->
    let refName := Getenv sys "GITHUB_REF_NAME" w in
    let dir := ref_dir refName in
    let version := ref_version refName in
    exists hash files,
      execs (run_trace (main sys sv std w))
      = [ ("git", ["show-ref"; "--hash"; refName]);
          ("gh", delete_args (tag_of dir (Major sv version)));
          ("gh", create_args hash (tag_of dir (Major sv version)) files);
          ("gh", delete_args (tag_of dir (MajorMinor sv version)));
          ("gh", create_args hash (tag_of dir (MajorMinor sv version)) files);
          ("gh", create_args hash (tag_of dir version) files) ].
Proof.
  intros W sys sv std w Hok refName dir version.
  destruct (main_execs _ _ _ _ _ (main_sound sys sv std w))
    as (out & entries & _ & Hall & _).
  exists (TrimSpace std out), (assets std dir entries).
  exact (Hall Hok).
Qed.

(* ================================================================= *)
(** ** Where an event sits in a run *)

Lemma cons_eq_app {A} (x : A) l pre e post :
  x :: l = pre ++ e :: post ->
  (pre = [] /\ x = e /\ l = post) \/
  (exists pre', pre = x :: pre' /\ l = pre' ++ e :: post).
Proof.
  destruct pre as [|y pre]; cbn; intros H; injection H as -> ->.
  - now left.
  - right. now exists pre.
Qed.

Lemma nil_eq_app {A} (pre : list A) e post : [] = pre ++ e :: post -> False.
Proof. now destruct pre. Qed.

(** Finds the event [e] of [H : l = pre ++ e :: post] in the list [l],
    whose first elements are known. *)
Ltac locate H :=
  repeat
    (let pre' := fresh "pre" in
     let Hx := fresh "Hx" in
     first
       [ apply nil_eq_app in H; contradiction
       | apply cons_eq_app in H as [(-> & Hx & H)|(pre' & -> & H)];
         [ try discriminate Hx | ] ]).

Lemma skipped_not_gh entries : Forall (fun x => ~ is_gh x) (skipped entries).
Proof.
  unfold skipped. induction (filter IsDir entries); cbn; constructor; auto.
Qed.

Section Events.

Variable sv : Semver.
Variable std : Std.

(** A [gh] event of a run belongs to the loop of [main]. *)
Lemma main_gh_event refName o t pre ev post :
  main_run sv std refName o t -> is_gh ev ->
  t = pre ++ ev :: post ->
  exists entries out t' pre',
    publish_run (ref_dir refName) (TrimSpace std out)
      (assets std (ref_dir refName) entries)
      (releases sv (ref_version refName)) o t' /\
    t' = pre' ++ ev :: post.
Proof.
  intros Hrun Hev Ht.
  destruct Hrun as [H|H1 H2|H1 H2 H3|entries e H1 H2 H3
                    |entries out stderr e H1 H2 H3
                    |entries out stderr o t H1 H2 H3 Hpub].
  1-3: now apply nil_eq_app in Ht.
  - apply cons_eq_app in Ht as [(-> & <- & _)|(pre' & -> & Ht)];
      [contradiction|now apply nil_eq_app in Ht].
  - apply cons_eq_app in Ht as [(-> & <- & _)|(pre' & -> & Ht)];
      [contradiction|].
    apply (split_after is_gh) in Ht as (pre2 & -> & Ht);
      [|apply skipped_not_gh|exact Hev].
    apply cons_eq_app in Ht as [(-> & <- & _)|(pre' & -> & Ht)];
      [discriminate Hev|now apply nil_eq_app in Ht].
  - apply cons_eq_app in Ht as [(-> & <- & _)|(pre' & -> & Ht)];
      [contradiction|].
    apply (split_after is_gh) in Ht as (pre2 & -> & Ht);
      [|apply skipped_not_gh|exact Hev].
    apply cons_eq_app in Ht as [(-> & <- & _)|(pre' & -> & Ht)];
      [discriminate Hev|].
    now exists entries, out, t, pre'.
Qed.

(** A creation that fails is the last event of the loop. *)
Lemma publish_failed_create dir hash files args o t :
  publish_run dir hash files args o t ->
  forall pre post target tag fs out stderr e,
    t = pre ++ EvExec "gh" (create_args target tag fs) out stderr (Some e)
               :: post ->
    post = [] /\
    o = Fatal (CreateGitHubRelease tag
                 (GhReleaseCreateError (create_args target tag fs)
                    (CmdOutputError e stderr))).
Proof.
  induction 1 as [|arg rest d out0 stderr0 e0 Hd
                  |arg rest d out0 stderr0 o t Hd Hrun IH];
    intros pre post target tag fs out stderr e Ht.
  - now apply nil_eq_app in Ht.
  - destruct Hd; cbn [app] in Ht; unfold create_args, delete_args in Ht;
      locate Ht; injection Hx as <- <- <- <- <- <-; now split.
  - destruct Hd; cbn [app] in Ht; unfold create_args, delete_args in Ht;
      locate Ht; now apply (IH _ _ _ _ _ _ _ _ Ht).
Qed.

(** After a delete, failed or not, comes the creation for the same
    tag; a failed delete leaves a warning in between. *)
Lemma publish_after_delete dir hash files args o t :
  publish_run dir hash files args o t ->
  forall pre post tag out stderr err,
    t = pre ++ EvExec "gh" (delete_args tag) out stderr err :: post ->
    exists out' stderr' err' post',
      post = match err with
             | Some _ => [EvLog (CouldNotDeleteRelease tag)]
             | None => []
             end ++
             EvExec "gh" (create_args hash tag files) out' stderr' err'
             :: post'.
Proof.
  induction 1 as [|arg rest d out0 stderr0 e0 Hd
                  |arg rest d out0 stderr0 o t Hd Hrun IH];
    intros pre post tag out stderr err Ht.
  - now apply nil_eq_app in Ht.
  - destruct Hd; cbn [app] in Ht; unfold create_args, delete_args in Ht;
      locate Ht; injection Hx as <- <- <- <-;
      now exists out0, stderr0, (Some e0), [].
  - destruct Hd; cbn [app] in Ht; unfold create_args, delete_args in Ht;
      locate Ht;
      try (injection Hx as <- <- <- <-;
           now exists out0, stderr0, None, t);
      now apply (IH _ _ _ _ _ _ Ht).
Qed.

(** The loop ends well exactly when every creation succeeded. *)
Lemma publish_released dir hash files args o t :
  publish_run dir hash files args o t ->
  (o = Ret tt /\
   released_tags t = map (fun arg => tag_of dir (version arg)) args) \/
  ((exists msg, o = Fatal msg) /\
   length (released_tags t) < length args).
Proof.
  assert (forall tag del d, pre_delete tag del d -> released_tags d = [])
    as Hnone by now destruct 1.
  assert (forall a b, released_tags (a ++ b)
                      = released_tags a ++ released_tags b)
    as Happ by (intros; apply flat_map_app).
  induction 1 as [|arg rest d out0 stderr0 e0 Hd
                  |arg rest d out0 stderr0 o t Hd Hrun IH].
  - now left.
  - right. split; [eauto|].
    rewrite Happ, (Hnone _ _ _ Hd). cbn. lia.
  - rewrite Happ, (Hnone _ _ _ Hd). cbn [app].
    change (released_tags (?e :: t)) with (released_tag e ++ released_tags t).
    cbn [released_tag].
    change (is_create "gh" (create_args hash (tag_of dir (version arg)) files))
      with true. cbn [nth create_args app].
    destruct IH as [[-> IH]|[Hmsg IH]].
    + left. split; [reflexivity|]. cbn. now rewrite IH.
    + right. split; [assumption|]. cbn. lia.
Qed.

End Events.

(* ================================================================= *)
(** ** Failures of [gh] *)

Lemma created_tags_app a b : created_tags (a ++ b) = created_tags a ++ created_tags b.
Proof. unfold created_tags. now rewrite execs_app, flat_map_app. Qed.

Lemma released_tags_app a b :
  released_tags (a ++ b) = released_tags a ++ released_tags b.
Proof. apply flat_map_app. Qed.

Lemma released_tags_skipped entries : released_tags (skipped entries) = [].
Proof. now apply flat_map_skipped. Qed.

Lemma main_released sv std refName o t :
  main_run sv std refName o t ->
  (o = Ret tt /\ released_tags t = release_tags sv refName) \/
  ((exists msg, o = Fatal msg) /\ length (released_tags t) < 3).
Proof.
  destruct 1 as [H|H1 H2|H1 H2 H3|entries e H1 H2 H3
                 |entries out stderr e H1 H2 H3
                 |entries out stderr o t H1 H2 H3 Hpub].
  1-4: right; split; [eauto|cbn; lia].
  - right. split; [eauto|].
    change (EvReadDir (ref_dir refName) entries None :: skipped entries ++
            [EvExec "git" ["show-ref"; "--hash"; refName] out stderr (Some e)])
      with ([EvReadDir (ref_dir refName) entries None] ++ skipped entries ++
            [EvExec "git" ["show-ref"; "--hash"; refName] out stderr (Some e)]).
    rewrite !released_tags_app, released_tags_skipped. cbn. lia.
  - change (EvReadDir (ref_dir refName) entries None :: skipped entries ++
            EvExec "git" ["show-ref"; "--hash"; refName] out stderr None :: t)
      with ([EvReadDir (ref_dir refName) entries None] ++ skipped entries ++
            [EvExec "git" ["show-ref"; "--hash"; refName] out stderr None]
            ++ t).
    rewrite !released_tags_app, released_tags_skipped. cbn [app].
    change (released_tags [EvReadDir (ref_dir refName) entries None]) with
      (@nil string).
    change (released_tags
              [EvExec "git" ["show-ref"; "--hash"; refName] out stderr None])
      with (@nil string).
    cbn [app].
    destruct (publish_released _ _ _ _ _ _ Hpub) as [[-> Hrel]|[Hmsg Hlen]].
    + left. split; [reflexivity|]. rewrite Hrel. reflexivity.
    + right. split; [assumption|]. exact Hlen.
Qed.

(** C3.  When a creation fails, nothing comes after it in the run: no
    further tag is tried, the failed tag is the last one a creation was
    attempted for, and the process ends with status 1 on the message
    for that tag. *)
Theorem create_failure_aborts_run :
  forall W (sys : Sys W) (sv : Semver) (std : Std) (w : W)
         pre post target tag files out stderr e,
    run_trace (main sys sv std w)
    = pre ++ EvExec "gh" (create_args target tag files) out stderr (Some e)
             :: post ->
    post = [] /\
    run_outcome (main sys sv std w)
    = Fatal (CreateGitHubRelease tag
               (GhReleaseCreateError (create_args target tag files)
                  (CmdOutputError e stderr))) /\
    exit_code (run_outcome (main sys sv std w)) = 1 /\
    created_tags (run_trace (main sys sv std w)) = created_tags pre ++ [tag].
Proof.
  intros W sys sv std w pre post target tag files out stderr e Ht.
  destruct (main_gh_event sv std _ _ _ pre
              (EvExec "gh" (create_args target tag files) out stderr (Some e))
              post (main_sound sys sv std w) eq_refl Ht)
    as (entries & out0 & t' & pre' & Hpub & Ht').
  destruct (publish_failed_create _ _ _ _ _ _ Hpub _ _ _ _ _ _ _ _ Ht')
    as [-> Ho].
  rewrite Ho, Ht, created_tags_app. now repeat split.
Qed.

(* ================================================================= *)
(** ** The Input Resolver *)

(** What [main] does with a reference name that is empty, does not
    split in two, or has an invalid version. *)
Lemma main_rejects W (sys : Sys W) sv std (w : W) :
  let refName := Getenv sys "GITHUB_REF_NAME" w in
  length (strings.Split refName "/") <> 2 \/
  IsValid sv (ref_version refName) = false ->
  main sys sv std w
  = (Fatal (if String.eqb refName EmptyString then MissingEnvVar
            else if (length (strings.Split refName "/") =? 2)%nat
                 then InvalidVersion (ref_version refName)
                 else InvalidTagName refName),
     [], w).
Proof.
  intros refName H. unfold main, bind, os_Getenv, log_Fatalf.
  fold refName. fold (ref_version refName).
  destruct (String.eqb refName EmptyString); [reflexivity|].
  destruct (length (strings.Split refName "/") =? 2)%nat eqn:Hparts;
    cbn [negb]; [|reflexivity].
  apply Nat.eqb_eq in Hparts.
  destruct H as [H|H]; [contradiction|].
  now rewrite H.
Qed.

(** C6.  A reference name that does not split in two on "/", or whose
    version is not valid, ends the run with status 1 before anything
    is listed or executed: the trace is empty and the world is
    untouched. *)
Theorem malformed_reference_fails_before_any_interaction :
  forall W (sys : Sys W) (sv : Semver) (std : Std) (w : W),
    let refName := Getenv sys "GITHUB_REF_NAME" w in
    length (strings.Split refName "/") <> 2 \/
    IsValid sv (ref_version refName) = false ->
    let r := main sys sv std w in
    run_outcome r
    = Fatal (if String.eqb refName EmptyString then MissingEnvVar
             else if (length (strings.Split refName "/") =? 2)%nat
                  then InvalidVersion (ref_version refName)
                  else InvalidTagName refName) /\
    exit_code (run_outcome r) = 1 /\
    run_trace r = [] /\
    run_world r = w.
Proof.
  intros W sys sv std w refName H r. unfold r.
  rewrite (main_rejects W sys sv std w H). now repeat split.
Qed.

(* ================================================================= *)
(** ** The Asset Collector *)

(** C7.  [readDir] lists the directory once.  If the listing succeeds
    it returns, without error, the names of the entries that are not
    directories, each joined with the directory, in the order of the
    listing, and logs one warning for each directory; if the listing
    fails it returns the wrapped error and no file.  It never ends the
    process, and it returns an error exactly when the listing did. *)
Theorem readDir_collects_files :
  forall W (sys : Sys W) (std : Std) (dir : string) (w : W),
    let '(entries, err, w') := ReadDir sys dir w in
    let r := readDir sys std dir w in
    run_world r = w' /\
    (exists files rerr,
        run_outcome r = Ret (files, rerr) /\
        (rerr = None <-> err = None)) /\
    match err with
    | None =>
        run_outcome r
        = Ret (map (fun e => Join std dir (Name e))
                   (filter (fun e => negb (IsDir e)) entries), None) /\
        run_trace r
        = EvReadDir dir entries None ::
          map (fun e => EvLog (SkippingDir (Name e))) (filter IsDir entries)
    | Some e =>
        run_outcome r = Ret ([], Some (ReadDirError e)) /\
        run_trace r = [EvReadDir dir entries (Some e)]
    end.
Proof.
  intros W sys std dir w.
  pose proof (readDir_run sys std dir w) as Hrun.
  destruct (ReadDir sys dir w) as [[entries err] w'].
  cbv zeta. rewrite Hrun.
  destruct err as [e|]; cbn.
  - split; [reflexivity|]. split; [|now split].
    exists [], (Some (ReadDirError e)). now split.
  - split; [reflexivity|]. split; [|now split].
    exists (assets std dir entries), None. now split.
Qed.

(** C9.  When the listing comes in the order of the file names, so do
    the files [readDir] returns; and two listings of the same entries,
    both in that order, give the same files. *)
Theorem assets_sorted_by_name :
  forall W (sys : Sys W) (std : Std) (dir : string) (w : W) entries w',
    ReadDir sys dir w = (entries, None, w') ->
    Sorted name_le entries ->
    exists names,
      run_outcome (readDir sys std dir w)
      = Ret (map (Join std dir) names, None) /\
      names = map Name (filter (fun e => negb (IsDir e)) entries) /\
      Sorted string_le names /\
      forall (u : W) entries' u',
        ReadDir sys dir u = (entries', None, u') ->
        Sorted name_le entries' ->
        Permutation entries entries' ->
        run_outcome (readDir sys std dir u)
        = run_outcome (readDir sys std dir w).
Proof.
  intros W sys std dir w entries w' Hlist Hsorted.
  assert (forall (v : W) l v',
             ReadDir sys dir v = (l, None, v') ->
             run_outcome (readDir sys std dir v)
             = Ret (map (Join std dir)
                      (map Name (filter (fun e => negb (IsDir e)) l)), None))
    as Hout.
  { intros v l v' Hv. rewrite readDir_run, Hv. cbn.
    unfold assets. now rewrite map_map. }
  assert (forall l, Sorted name_le l ->
             StronglySorted string_le
               (map Name (filter (fun e => negb (IsDir e)) l))) as Hstrong.
  { intros l Hl. apply StronglySorted_map_name, StronglySorted_filter.
    apply Sorted_StronglySorted; [|exact Hl].
    intros a b c. apply name_le_trans. }
  exists (map Name (filter (fun e => negb (IsDir e)) entries)).
  split; [now apply (Hout w entries w')|]. split; [reflexivity|].
  split; [now apply StronglySorted_Sorted, Hstrong|].
  intros u entries' u' Hu Hsorted' Hperm.
  rewrite (Hout u entries' u' Hu), (Hout w entries w' Hlist).
  do 3 f_equal. symmetry.
  apply sorted_permutation_eq; try now apply Hstrong.
  now apply Permutation_map, Permutation_filter_dir.
Qed.

(* ================================================================= *)
(** ** The Commit Resolver *)


Lemma Forall_prefix {A} (P : A -> Prop) l1 l2 :
  prefix l1 l2 -> Forall P l2 -> Forall P l1.
Proof. intros [k ->] H. now apply Forall_app in H. Qed.


(* ================================================================= *)
(** ** The format check *)

Lemma publish_outcome dir hash files args o t :
  publish_run dir hash files args o t ->
  o = Ret tt \/ exists tag e, o = Fatal (CreateGitHubRelease tag e).
Proof. induction 1; eauto. Qed.

(** C2, as the specification words it, fails on the reference name
    "/v1.2.3": its component is empty, yet the run gets past the Input
    Resolver and fails in the Asset Collector, on listing the directory
    with the empty name. *)
Lemma empty_component_is_no_format_error :
  ~ format_error_unless_two_nonempty_parts
      Hub.sys golang_semver Hub.std Hub.no_component.
Proof.
  unfold format_error_unless_two_nonempty_parts. intros H.
  assert (run_outcome (main Hub.sys golang_semver Hub.std Hub.no_component)
          = Fatal (ListFiles (ReadDirError
                                (External "no such file or directory"))))
    as Hrun by (vm_compute; reflexivity).
  destruct H as [H _].
  - intros (dir & version & Hsplit & Hdir & _).
    vm_compute in Hsplit. injection Hsplit as <- _. now apply Hdir.
  - rewrite Hrun in H. discriminate H.
Qed.

(** C2, amended.  A non-empty reference name gets the format error
    exactly when it does not split on "/" into two parts, and then
    nothing else has run.  The two parts are not checked for
    emptiness: when the name splits in two, an invalid version part,
    empty or not, ends the run with the version error before anything
    else runs, and otherwise the directory named by the component part
    is listed, even when that name is empty. *)
Theorem format_error_iff_not_two_parts :
  forall W (sys : Sys W) (sv : Semver) (std : Std) (w : W),
    let refName := Getenv sys "GITHUB_REF_NAME" w in
    let r := main sys sv std w in
    refName <> EmptyString ->
    (run_outcome r = Fatal (InvalidTagName refName) <->
     length (strings.Split refName "/") <> 2) /\
    (length (strings.Split refName "/") <> 2 -> run_trace r = []) /\
    (length (strings.Split refName "/") = 2 ->
     IsValid sv (ref_version refName) = false ->
     run_outcome r = Fatal (InvalidVersion (ref_version refName)) /\
     run_trace r = []) /\
    (length (strings.Split refName "/") = 2 ->
     IsValid sv (ref_version refName) = true ->
     exists entries err rest,
       run_trace r = EvReadDir (ref_dir refName) entries err :: rest).
Proof.
  intros W sys sv std w refName r Hne.
  pose proof (main_sound sys sv std w) as Hrun. fold refName r in Hrun.
  destruct Hrun as [H|H1 H2|H1 H2 H3|entries e H1 H2 H3
                    |entries out stderr e H1 H2 H3
                    |entries out stderr o t H1 H2 H3 Hpub];
    try contradiction.
  - repeat split; try easy.
  - repeat split; try easy; congruence.
  - repeat split; try easy; try congruence. eauto.
  - repeat split; try easy; try congruence. eauto.
  - destruct (publish_outcome _ _ _ _ _ _ Hpub) as [->|(tag & e & ->)];
      repeat split; try easy; try congruence; eauto.
Qed.

(* ================================================================= *)
(** ** The theorems at work on the small world *)

(** The scenario of the specification, run. *)
Example widgets_run :
  run_outcome (Hub.run Hub.widgets) = Ret tt /\
  execs (run_trace (Hub.run Hub.widgets))
  = [ ("git", ["show-ref"; "--hash"; "widgets/v2.3.1"]);
      ("gh", ["release"; "delete"; "--cleanup-tag"; "--yes"; "widgets/v2"]);
      ("gh", ["release"; "create"; "--target"; "3f2a9c1"; "widgets/v2";
              "widgets/a.tar.gz"; "widgets/b.tar.gz"]);
      ("gh", ["release"; "delete"; "--cleanup-tag"; "--yes"; "widgets/v2.3"]);
      ("gh", ["release"; "create"; "--target"; "3f2a9c1"; "widgets/v2.3";
              "widgets/a.tar.gz"; "widgets/b.tar.gz"]);
      ("gh", ["release"; "create"; "--target"; "3f2a9c1"; "widgets/v2.3.1";
              "widgets/a.tar.gz"; "widgets/b.tar.gz"]) ] /\
  Hub.released (run_world (Hub.run Hub.widgets))
  = ["widgets/v2.3.1"; "widgets/v2.3"; "widgets/v2"].
Proof. vm_compute. repeat split. Qed.

(** In that run both deletes fail, since no release exists yet, and
    the run ends well all the same. *)
Example widgets_trace :
  run_trace (Hub.run Hub.widgets)
  = [ EvReadDir "widgets"
        [ {| Name := "a.tar.gz"; IsDir := false |};
          {| Name := "b.tar.gz"; IsDir := false |};
          {| Name := "docs"; IsDir := true |} ] None;
      EvLog (SkippingDir "docs");
      EvExec "git" ["show-ref"; "--hash"; "widgets/v2.3.1"]
        (String "3" (String "f" (String "2" (String "a" (String "9"
           (String "c" (String "1" (String "010" EmptyString))))))))
        EmptyString None;
      EvExec "gh" (delete_args "widgets/v2") EmptyString "release not found"
        Hub.exit_status_1;
      EvLog (CouldNotDeleteRelease "widgets/v2");
      EvExec "gh"
        (create_args "3f2a9c1" "widgets/v2"
           ["widgets/a.tar.gz"; "widgets/b.tar.gz"])
        EmptyString EmptyString None;
      EvExec "gh" (delete_args "widgets/v2.3") EmptyString "release not found"
        Hub.exit_status_1;
      EvLog (CouldNotDeleteRelease "widgets/v2.3");
      EvExec "gh"
        (create_args "3f2a9c1" "widgets/v2.3"
           ["widgets/a.tar.gz"; "widgets/b.tar.gz"])
        EmptyString EmptyString None;
      EvExec "gh"
        (create_args "3f2a9c1" "widgets/v2.3.1"
           ["widgets/a.tar.gz"; "widgets/b.tar.gz"])
        EmptyString EmptyString None ].
Proof. vm_compute. reflexivity. Qed.

(** A second run on the world the first one left finds the exact
    release in place: the aliases are moved, the last creation fails
    and the process ends with status 1. *)
Example widgets_second_run :
  let w := run_world (Hub.run Hub.widgets) in
  gh_calls (run_trace (Hub.run w))
  = [ Delete "widgets/v2"; Create "widgets/v2";
      Delete "widgets/v2.3"; Create "widgets/v2.3";
      Create "widgets/v2.3.1" ] /\
  released_tags (run_trace (Hub.run w)) = ["widgets/v2"; "widgets/v2.3"] /\
  exit_code (run_outcome (Hub.run w)) = 1.
Proof. vm_compute. repeat split. Qed.

(** Reference names that do not split in two leave no trace. *)
Example malformed_names :
  forall name, In name ["foo"; "a/b/c"] ->
    Hub.run (Hub.bare name) = (Fatal (InvalidTagName name), [], Hub.bare name).
Proof. intros name [<-|[<-|[]]]; vm_compute; reflexivity. Qed.

(** Pre-release versions keep their derived tags free of the suffix,
    and the short forms of a version are valid too. *)
Example semver_examples :
  map semver.IsValid ["v1.2.3"; "v1.2.3-rc1"; "v1.2"; "v1"; "1.2.3"; "v01.2.3"]
  = [true; true; true; true; false; false] /\
  semver.Major "v1.2.3-rc1" = "v1" /\
  semver.MajorMinor "v1.2.3-rc1" = "v1.2" /\
  semver.IsValid EmptyString = false.
Proof. vm_compute. repeat split. Qed.

Example Split_examples :
  strings.Split "foo" "/" = ["foo"] /\
  strings.Split "a/b/c" "/" = ["a"; "b"; "c"] /\
  strings.Split "/v1.2.3" "/" = [EmptyString; "v1.2.3"] /\
  strings.Split "a/" "/" = ["a"; EmptyString] /\
  strings.Split EmptyString "/" = [EmptyString].
Proof. vm_compute. repeat split. Qed.

Lemma format_error_iff_not_two_parts_witness :
  Getenv Hub.sys "GITHUB_REF_NAME" Hub.no_component <> EmptyString /\
  exists entries err rest,
    run_trace (Hub.run Hub.no_component)
    = EvReadDir EmptyString entries err :: rest.
Proof.
  assert (Getenv Hub.sys "GITHUB_REF_NAME" Hub.no_component <> EmptyString)
    as Hne by discriminate.
  split; [exact Hne|].
  exact (proj2 (proj2 (proj2 (format_error_iff_not_two_parts
                                Hub.hub Hub.sys golang_semver Hub.std
                                Hub.no_component Hne)))
           eq_refl eq_refl).
Defined.

Lemma create_failure_aborts_run_witness :
  run_trace (Hub.run Hub.widgets_locked)
  = firstn 8 (run_trace (Hub.run Hub.widgets_locked)) ++
    EvExec "gh"
      (create_args "3f2a9c1" "widgets/v2.3"
         ["widgets/a.tar.gz"; "widgets/b.tar.gz"])
      EmptyString "a release with the same tag name already exists"
      (Some (External "exit status 1")) :: [] /\
  exit_code (run_outcome (Hub.run Hub.widgets_locked)) = 1 /\
  created_tags (run_trace (Hub.run Hub.widgets_locked))
  = ["widgets/v2"; "widgets/v2.3"].
Proof.
  assert (run_trace (main Hub.sys golang_semver Hub.std Hub.widgets_locked)
          = firstn 8 (run_trace (Hub.run Hub.widgets_locked)) ++
            EvExec "gh"
              (create_args "3f2a9c1" "widgets/v2.3"
                 ["widgets/a.tar.gz"; "widgets/b.tar.gz"])
              EmptyString "a release with the same tag name already exists"
              (Some (External "exit status 1")) :: [])
    as Ht by (vm_compute; reflexivity).
  split; [exact Ht|].
  destruct (create_failure_aborts_run
              Hub.hub Hub.sys golang_semver Hub.std Hub.widgets_locked
              _ _ _ _ _ _ _ _ Ht) as (_ & _ & Hcode & Htags).
  split; [exact Hcode|]. unfold Hub.run. rewrite Htags. reflexivity.
Defined.

Lemma malformed_reference_fails_before_any_interaction_witness :
  (length (strings.Split
             (Getenv Hub.sys "GITHUB_REF_NAME" Hub.checktypes) "/") <> 2 \/
   IsValid golang_semver
     (ref_version (Getenv Hub.sys "GITHUB_REF_NAME" Hub.checktypes)) = false) /\
  run_outcome (Hub.run Hub.checktypes) = Fatal (InvalidVersion "1.2.3") /\
  exit_code (run_outcome (Hub.run Hub.checktypes)) = 1 /\
  run_trace (Hub.run Hub.checktypes) = [] /\
  run_world (Hub.run Hub.checktypes) = Hub.checktypes.
Proof.
  assert (length (strings.Split
                    (Getenv Hub.sys "GITHUB_REF_NAME" Hub.checktypes) "/") <> 2 \/
          IsValid golang_semver
            (ref_version (Getenv Hub.sys "GITHUB_REF_NAME" Hub.checktypes))
          = false) as Hbad by (right; reflexivity).
  split; [exact Hbad|].
  exact (malformed_reference_fails_before_any_interaction
           Hub.hub Hub.sys golang_semver Hub.std Hub.checktypes Hbad).
Defined.

Lemma assets_sorted_by_name_witness :
  ReadDir Hub.sys "widgets" Hub.widgets
  = ([ {| Name := "a.tar.gz"; IsDir := false |};
       {| Name := "b.tar.gz"; IsDir := false |};
       {| Name := "docs"; IsDir := true |} ], None, Hub.widgets) /\
  Sorted name_le [ {| Name := "a.tar.gz"; IsDir := false |};
                   {| Name := "b.tar.gz"; IsDir := false |};
                   {| Name := "docs"; IsDir := true |} ] /\
  exists names,
    run_outcome (readDir Hub.sys Hub.std "widgets" Hub.widgets)
    = Ret (map (Join Hub.std "widgets") names, None) /\
    names = ["a.tar.gz"; "b.tar.gz"] /\
    Sorted string_le names.
Proof.
  assert (Sorted name_le [ {| Name := "a.tar.gz"; IsDir := false |};
                           {| Name := "b.tar.gz"; IsDir := false |};
                           {| Name := "docs"; IsDir := true |} ]) as Hsorted
      by (repeat constructor).
  split; [reflexivity|]. split; [exact Hsorted|].
  destruct (assets_sorted_by_name Hub.hub Hub.sys Hub.std "widgets"
              Hub.widgets _ _ eq_refl Hsorted)
    as (names & Hout & Hnames & Hs & _).
  exists names. now repeat split.
Defined.

Lemma successful_run_six_subprocesses_witness :
  run_outcome (main Hub.sys golang_semver Hub.std Hub.widgets) = Ret tt /\
  exists hash files,
    execs (run_trace (main Hub.sys golang_semver Hub.std Hub.widgets))
    = [ ("git", ["show-ref"; "--hash"; "widgets/v2.3.1"]);
        ("gh", delete_args "widgets/v2");
        ("gh", create_args hash "widgets/v2" files);
        ("gh", delete_args "widgets/v2.3");
        ("gh", create_args hash "widgets/v2.3" files);
        ("gh", create_args hash "widgets/v2.3.1" files) ].
Proof.
  split; [reflexivity|].
  exact (successful_run_six_subprocesses
           Hub.hub Hub.sys golang_semver Hub.std Hub.widgets eq_refl).
Defined.

(* ================================================================= *)
(** ** The stages of a run *)

Lemma skipped_not_git entries : Forall (fun x => ~ is_git x) (skipped entries).
Proof.
  unfold skipped. induction (filter IsDir entries); cbn; constructor; auto.
Qed.

Lemma skipped_not_loop entries :
  Forall (fun x => ~ loop_event x) (skipped entries).
Proof.
  unfold skipped. induction (filter IsDir entries); cbn; constructor; auto.
Qed.

Lemma in_skipped ev entries :
  In ev (skipped entries) ->
  exists entry, In entry entries /\ IsDir entry = true /\
                ev = EvLog (SkippingDir (Name entry)).
Proof.
  unfold skipped. intros H. apply in_map_iff in H as (entry & <- & Hin).
  apply filter_In in Hin as [Hin Hdir]. now exists entry.
Qed.

Lemma listed_dirs_app a b : listed_dirs (a ++ b) = listed_dirs a ++ listed_dirs b.
Proof. apply flat_map_app. Qed.

Lemma listed_dirs_loop t : Forall loop_event t -> listed_dirs t = [].
Proof.
  induction 1 as [|e t He Ht IH]; [reflexivity|].
  destruct e; cbn in *; try contradiction; exact IH.
Qed.

Section Stages.

Variable sv : Semver.
Variable std : Std.

(** The loop of [main] only calls [gh] and warns about deletes. *)
Lemma publish_loop_events dir hash files args o t :
  publish_run dir hash files args o t -> Forall loop_event t.
Proof.
  assert (forall tag del d, pre_delete tag del d -> Forall loop_event d)
    as Hd by (destruct 1; repeat constructor).
  induction 1 as [|arg rest d out stderr e Hpre
                  |arg rest d out stderr o t Hpre Hrun IH].
  - constructor.
  - apply Forall_app. split; [now apply (Hd _ _ _ Hpre)|].
    now repeat constructor.
  - apply Forall_app. split; [now apply (Hd _ _ _ Hpre)|].
    constructor; [reflexivity|exact IH].
Qed.

(** An event of the loop sits behind a listing and a [git] call that
    both succeeded, for a reference name that passed the checks. *)
Lemma main_loop_part refName o t pre ev post :
  main_run sv std refName o t -> loop_event ev ->
  t = pre ++ ev :: post ->
  refName <> EmptyString /\
  length (strings.Split refName "/") = 2 /\
  IsValid sv (ref_version refName) = true /\
  exists entries out stderr t' pre',
    publish_run (ref_dir refName) (TrimSpace std out)
      (assets std (ref_dir refName) entries)
      (releases sv (ref_version refName)) o t' /\
    t' = pre' ++ ev :: post /\
    pre = EvReadDir (ref_dir refName) entries None :: skipped entries ++
          EvExec "git" ["show-ref"; "--hash"; refName] out stderr None
          :: pre'.
Proof.
  intros Hrun Hev Ht.
  destruct Hrun as [H|H1 H2|H1 H2 H3|entries e H1 H2 H3
                    |entries out stderr e H1 H2 H3
                    |entries out stderr o t H1 H2 H3 Hpub].
  1-3: now apply nil_eq_app in Ht.
  - apply cons_eq_app in Ht as [(-> & <- & _)|(pre' & -> & Ht)];
      [contradiction|now apply nil_eq_app in Ht].
  - apply cons_eq_app in Ht as [(-> & <- & _)|(pre' & -> & Ht)];
      [contradiction|].
    apply (split_after loop_event) in Ht as (pre2 & -> & Ht);
      [|apply skipped_not_loop|exact Hev].
    apply cons_eq_app in Ht as [(-> & <- & _)|(pre' & -> & Ht)];
      [discriminate Hev|now apply nil_eq_app in Ht].
  - apply cons_eq_app in Ht as [(-> & <- & _)|(pre' & -> & Ht)];
      [contradiction|].
    apply (split_after loop_event) in Ht as (pre2 & -> & Ht);
      [|apply skipped_not_loop|exact Hev].
    apply cons_eq_app in Ht as [(-> & <- & _)|(pre' & -> & Ht)];
      [discriminate Hev|].
    repeat (split; [assumption|]).
    now exists entries, out, stderr, t, pre'.
Qed.

(** A warning about a delete comes right after the delete that
    failed. *)
Lemma publish_warning_cause dir hash files args o t :
  publish_run dir hash files args o t ->
  forall pre post tag,
    t = pre ++ EvLog (CouldNotDeleteRelease tag) :: post ->
    exists pre' out stderr e,
      pre = pre' ++ [EvExec "gh" (delete_args tag) out stderr (Some e)].
Proof.
  induction 1 as [|arg rest d out0 stderr0 e0 Hd
                  |arg rest d out0 stderr0 o t Hd Hrun IH];
    intros pre post tag Ht.
  - now apply nil_eq_app in Ht.
  - destruct Hd; cbn [app] in Ht; locate Ht.
    injection Hx as <-. now exists [], out, stderr, e.
  - destruct Hd; cbn [app] in Ht; locate Ht;
      try (injection Hx as <-; now exists [], out, stderr, e);
      destruct (IH _ _ _ Ht) as (pre' & out1 & stderr1 & e1 & ->);
      rewrite ?app_comm_cons; eexists _, out1, stderr1, e1; reflexivity.
Qed.

(** When the loop ends the process, its last event is the creation
    that failed, and the message is made of it. *)
Lemma publish_fatal_cause dir hash files args o t :
  publish_run dir hash files args o t ->
  forall msg, o = Fatal msg ->
    exists pre tag out stderr e,
      t = pre ++ [EvExec "gh" (create_args hash tag files) out stderr (Some e)]
      /\ msg = CreateGitHubRelease tag
                 (GhReleaseCreateError (create_args hash tag files)
                    (CmdOutputError e stderr)).
Proof.
  induction 1 as [|arg rest d out0 stderr0 e0 Hd
                  |arg rest d out0 stderr0 o t Hd Hrun IH];
    intros msg Hmsg.
  - discriminate Hmsg.
  - injection Hmsg as <-.
    now exists d, (tag_of dir (version arg)), out0, stderr0, e0.
  - destruct (IH _ Hmsg) as (pre & tag & out & stderr & e & -> & ->).
    exists (d ++ EvExec "gh"
                   (create_args hash (tag_of dir (version arg)) files)
                   out0 stderr0 None :: pre), tag, out, stderr, e.
    split; [|reflexivity]. now rewrite <- app_assoc.
Qed.

End Stages.

(* ================================================================= *)
(** ** What a run does, stage by stage *)

(** X1.  No [gh] command runs unless the reference name is not empty,
    splits in two and has a valid version, the directory was listed
    without error and [git] resolved the name: the run then starts
    with that listing, its warnings and that [git] call. *)
Theorem gh_only_after_resolution :
  forall W (sys : Sys W) (sv : Semver) (std : Std) (w : W)
         pre post arg out stderr err,
    run_trace (main sys sv std w)
    = pre ++ EvExec "gh" arg out stderr err :: post ->
    let refName := Getenv sys "GITHUB_REF_NAME" w in
    refName <> EmptyString /\
    length (strings.Split refName "/") = 2 /\
    IsValid sv (ref_version refName) = true /\
    exists entries out0 stderr0 pre',
      pre = EvReadDir (ref_dir refName) entries None ::
            map (fun e => EvLog (SkippingDir (Name e))) (filter IsDir entries)
            ++ EvExec "git" ["show-ref"; "--hash"; refName] out0 stderr0 None
            :: pre' /\
      Forall loop_event pre'.
Proof.
  intros W sys sv std w pre post arg out stderr err Ht refName.
  destruct (main_loop_part sv std _ _ _ pre
              (EvExec "gh" arg out stderr err) post
              (main_sound sys sv std w) eq_refl Ht)
    as (H1 & H2 & H3 & entries & out0 & stderr0 & t' & pre' & Hpub & Ht' & ->).
  repeat (split; [assumption|]).
  exists entries, out0, stderr0, pre'. split; [reflexivity|].
  apply publish_loop_events in Hpub. rewrite Ht' in Hpub.
  now apply Forall_app in Hpub.
Qed.

(** X2.  When the listing of the directory fails, it is the only event
    of the run: the process ends with status 1 on the message that
    wraps the listing error, and no subprocess has run. *)
Theorem listing_failure_ends_run :
  forall W (sys : Sys W) (sv : Semver) (std : Std) (w : W)
         pre post dir entries e,
    run_trace (main sys sv std w)
    = pre ++ EvReadDir dir entries (Some e) :: post ->
    pre = [] /\ post = [] /\
    dir = ref_dir (Getenv sys "GITHUB_REF_NAME" w) /\
    run_outcome (main sys sv std w) = Fatal (ListFiles (ReadDirError e)) /\
    exit_code (run_outcome (main sys sv std w)) = 1 /\
    execs (run_trace (main sys sv std w)) = [].
Proof.
  intros W sys sv std w pre post dir entries e Ht.
  pose proof (main_sound sys sv std w) as Hrun.
  rewrite Ht in *.
  remember (pre ++ EvReadDir dir entries (Some e) :: post) as t eqn:Heq.
  destruct Hrun as [H|H1 H2|H1 H2 H3|entries0 e0 H1 H2 H3
                    |entries0 out stderr e0 H1 H2 H3
                    |entries0 out stderr o t H1 H2 H3 Hpub].
  1-3: now apply nil_eq_app in Heq.
  - apply cons_eq_app in Heq as [(-> & Hx & <-)|(pre' & -> & Heq)];
      [|now apply nil_eq_app in Heq].
    injection Hx as <- <- <-. now repeat split.
  - exfalso.
    assert (In (EvReadDir dir entries (Some e))
              (EvReadDir (ref_dir (Getenv sys "GITHUB_REF_NAME" w)) entries0
                 None :: skipped entries0 ++
               [EvExec "git"
                  ["show-ref"; "--hash"; Getenv sys "GITHUB_REF_NAME" w]
                  out stderr (Some e0)])) as Hin
        by (rewrite Heq; apply in_elt).
    destruct Hin as [Hin|Hin]; [discriminate Hin|].
    apply in_app_or in Hin as [Hin|[Hin|[]]]; [|discriminate Hin].
    apply in_skipped in Hin as (entry & _ & _ & Hin). discriminate Hin.
  - exfalso.
    assert (In (EvReadDir dir entries (Some e))
              (EvReadDir (ref_dir (Getenv sys "GITHUB_REF_NAME" w)) entries0
                 None :: skipped entries0 ++
               EvExec "git"
                 ["show-ref"; "--hash"; Getenv sys "GITHUB_REF_NAME" w]
                 out stderr None :: t)) as Hin
        by (rewrite Heq; apply in_elt).
    destruct Hin as [Hin|Hin]; [discriminate Hin|].
    apply in_app_or in Hin as [Hin|[Hin|Hin]]; [|discriminate Hin|].
    + apply in_skipped in Hin as (entry & _ & _ & Hin). discriminate Hin.
    + apply publish_loop_events in Hpub. rewrite Forall_forall in Hpub.
      exact (Hpub _ Hin).
Qed.

(** X3.  When [git] fails, it is the last event of the run: the
    process ends with status 1 on the message that wraps the error and
    the standard error of [git], after the listing and its warnings
    only, and no release has been deleted or created. *)
Theorem commit_failure_ends_run :
  forall W (sys : Sys W) (sv : Semver) (std : Std) (w : W)
         pre post arg out stderr e,
    run_trace (main sys sv std w)
    = pre ++ EvExec "git" arg out stderr (Some e) :: post ->
    let refName := Getenv sys "GITHUB_REF_NAME" w in
    post = [] /\
    arg = ["show-ref"; "--hash"; refName] /\
    (exists entries,
        pre = EvReadDir (ref_dir refName) entries None ::
              map (fun x => EvLog (SkippingDir (Name x)))
                  (filter IsDir entries)) /\
    run_outcome (main sys sv std w)
    = Fatal (GetHash (GitShowRefError (CmdOutputError e stderr))) /\
    exit_code (run_outcome (main sys sv std w)) = 1 /\
    gh_calls (run_trace (main sys sv std w)) = [].
Proof.
  intros W sys sv std w pre post arg out stderr e Ht refName.
  pose proof (main_sound sys sv std w) as Hrun. fold refName in Hrun.
  rewrite Ht in *.
  remember (pre ++ EvExec "git" arg out stderr (Some e) :: post) as t eqn:Heq.
  destruct Hrun as [H|H1 H2|H1 H2 H3|entries0 e0 H1 H2 H3
                    |entries0 out0 stderr0 e0 H1 H2 H3
                    |entries0 out0 stderr0 o t H1 H2 H3 Hpub].
  1-3: now apply nil_eq_app in Heq.
  - apply cons_eq_app in Heq as [(-> & Hx & <-)|(pre' & -> & Heq)];
      [discriminate Hx|now apply nil_eq_app in Heq].
  - apply cons_eq_app in Heq as [(-> & Hx & _)|(pre' & -> & Heq)];
      [discriminate Hx|].
    apply (split_after is_git) in Heq as (pre2 & -> & Heq);
      [|apply skipped_not_git|reflexivity].
    apply cons_eq_app in Heq as [(-> & Hx & <-)|(pre' & -> & Heq)];
      [|now apply nil_eq_app in Heq].
    injection Hx as <- <- <- <-.
    split; [reflexivity|]. split; [reflexivity|].
    split; [exists entries0; now rewrite app_nil_r|].
    split; [reflexivity|]. split; [reflexivity|].
    unfold gh_calls.
    change (execs (EvReadDir (ref_dir refName) entries0 None ::
                   skipped entries0 ++
                   [EvExec "git" ["show-ref"; "--hash"; refName] out0 stderr0
                      (Some e0)]))
      with (execs (skipped entries0 ++
                   [EvExec "git" ["show-ref"; "--hash"; refName] out0 stderr0
                      (Some e0)])).
    now rewrite execs_app, execs_skipped.
  - exfalso.
    apply cons_eq_app in Heq as [(-> & Hx & _)|(pre' & -> & Heq)];
      [discriminate Hx|].
    apply (split_after is_git) in Heq as (pre2 & -> & Heq);
      [|apply skipped_not_git|reflexivity].
    apply cons_eq_app in Heq as [(-> & Hx & _)|(pre' & -> & Heq)];
      [discriminate Hx|].
    apply publish_loop_events in Hpub. rewrite Heq in Hpub.
    apply Forall_app in Hpub as [_ Hpub].
    inversion Hpub as [|? ? Hgit _]. discriminate Hgit.
Qed.

Lemma listed_dirs_skipped entries : listed_dirs (skipped entries) = [].
Proof. now apply flat_map_skipped. Qed.

(** X4.  The directory is listed once and its files are shared: every
    creation of a run carries as file operands exactly the paths of
    the entries of that listing that are not directories, in the order
    of the listing, so the three creations of a run that ends well
    attach the same files. *)
Theorem creations_share_the_listed_files :
  forall W (sys : Sys W) (sv : Semver) (std : Std) (w : W)
         dir entries err rest,
    run_trace (main sys sv std w) = EvReadDir dir entries err :: rest ->
    let files := map (fun e => Join std dir (Name e))
                     (filter (fun e => negb (IsDir e)) entries) in
    dir = ref_dir (Getenv sys "GITHUB_REF_NAME" w) /\
    listed_dirs (run_trace (main sys sv std w)) = [dir] /\
    Forall (fun operands => operands = files)
      (create_files (run_trace (main sys sv std w))) /\
    (run_outcome (main sys sv std w) = Ret tt ->
     create_files (run_trace (main sys sv std w)) = [files; files; files]).
Proof.
  intros W sys sv std w dir entries err rest Ht files.
  pose proof (main_sound sys sv std w) as Hrun.
  rewrite Ht in *.
  remember (EvReadDir dir entries err :: rest) as t eqn:Heq.
  destruct Hrun as [H|H1 H2|H1 H2 H3|entries0 e0 H1 H2 H3
                    |entries0 out0 stderr0 e0 H1 H2 H3
                    |entries0 out0 stderr0 o t H1 H2 H3 Hpub];
    try discriminate Heq; injection Heq as <- <- <- <-.
  - repeat split; [constructor|discriminate].
  - change (EvReadDir (ref_dir (Getenv sys "GITHUB_REF_NAME" w)) entries0 None
            :: skipped entries0 ++
            [EvExec "git" ["show-ref"; "--hash";
                           Getenv sys "GITHUB_REF_NAME" w] out0 stderr0
               (Some e0)])
      with ([EvReadDir (ref_dir (Getenv sys "GITHUB_REF_NAME" w)) entries0 None]
            ++ skipped entries0 ++
            [EvExec "git" ["show-ref"; "--hash";
                           Getenv sys "GITHUB_REF_NAME" w] out0 stderr0
               (Some e0)]).
    unfold create_files.
    rewrite !listed_dirs_app, !execs_app, execs_skipped, listed_dirs_skipped.
    repeat split; [constructor|discriminate].
  - destruct (publish_execs _ _ _ _ _ _ Hpub) as [P1 P2].
    pose proof (publish_loop_events _ _ _ _ _ _ Hpub) as Hloop.
    change (EvReadDir (ref_dir (Getenv sys "GITHUB_REF_NAME" w)) entries0 None
            :: skipped entries0 ++
            EvExec "git" ["show-ref"; "--hash";
                          Getenv sys "GITHUB_REF_NAME" w] out0 stderr0 None
            :: t)
      with ([EvReadDir (ref_dir (Getenv sys "GITHUB_REF_NAME" w)) entries0 None]
            ++ skipped entries0 ++
            [EvExec "git" ["show-ref"; "--hash";
                           Getenv sys "GITHUB_REF_NAME" w] out0 stderr0 None]
            ++ t).
    unfold create_files.
    rewrite !listed_dirs_app, !execs_app, execs_skipped,
      (listed_dirs_loop t Hloop), listed_dirs_skipped.
    split; [reflexivity|]. split; [reflexivity|].
    cbn [app execs flat_map exec_of create_files_of is_create].
    assert (flat_map create_files_of
              (publish_plan (ref_dir (Getenv sys "GITHUB_REF_NAME" w))
                 (TrimSpace std out0)
                 (assets std (ref_dir (Getenv sys "GITHUB_REF_NAME" w))
                    entries0)
                 (releases sv (ref_version (Getenv sys "GITHUB_REF_NAME" w))))
            = [files; files; files]) as Hplan by reflexivity.
    split.
    + apply (prefix_flat_map create_files_of) in P1. rewrite Hplan in P1.
      apply (Forall_prefix _ _ _ P1). now repeat constructor.
    + intros Ho. now rewrite (P2 Ho).
Qed.

(** X5.  Splitting and joining again gives the reference name back:
    when the name splits in two, neither part holds a "/", and
    [dir + "/" + version] is the name itself.  So the release for the
    exact version is created under the very name [git] resolved: in a
    run that ends well it is the third and last tag. *)
Theorem exact_tag_is_the_reference_name :
  forall W (sys : Sys W) (sv : Semver) (std : Std) (w : W),
    let refName := Getenv sys "GITHUB_REF_NAME" w in
    let dir := ref_dir refName in
    let version := ref_version refName in
    length (strings.Split refName "/") = 2 ->
    no_slash dir = true /\ no_slash version = true /\
    tag_of dir version = refName /\
    (run_outcome (main sys sv std w) = Ret tt ->
     created_tags (run_trace (main sys sv std w))
     = [ tag_of dir (Major sv version);
         tag_of dir (MajorMinor sv version);
         refName ]).
Proof.
  intros W sys sv std w refName dir version Hlen.
  destruct (proj1 (Split_two refName) Hlen) as (a & b & Href & Ha & Hb).
  destruct (ref_parts a b Ha Hb) as (_ & Hdir & Hver).
  assert (dir = a) as Hd by (unfold dir; now rewrite Href).
  assert (version = b) as Hv by (unfold version; now rewrite Href).
  assert (tag_of dir version = refName) as Htag
      by (rewrite Hd, Hv; symmetry; exact Href).
  split; [now rewrite Hd|]. split; [now rewrite Hv|].
  split; [exact Htag|].
  intros Hok.
  rewrite (proj2 (main_created_tags W sys sv std w) Hok).
  change (release_tags sv (Getenv sys "GITHUB_REF_NAME" w))
    with [tag_of dir (Major sv version); tag_of dir (MajorMinor sv version);
          tag_of dir version].
  now rewrite Htag.
Qed.

(** X6.  A warning about a delete is never logged without cause: the
    event just before it is the delete of the same tag, and that
    delete failed. *)
Theorem delete_warning_follows_failed_delete :
  forall W (sys : Sys W) (sv : Semver) (std : Std) (w : W) pre post tag,
    run_trace (main sys sv std w)
    = pre ++ EvLog (CouldNotDeleteRelease tag) :: post ->
    exists pre' out stderr e,
      pre = pre' ++ [EvExec "gh" (delete_args tag) out stderr (Some e)].
Proof.
  intros W sys sv std w pre post tag Ht.
  destruct (main_loop_part sv std _ _ _ pre
              (EvLog (CouldNotDeleteRelease tag)) post
              (main_sound sys sv std w) I Ht)
    as (_ & _ & _ & entries & out0 & stderr0 & t' & pre' & Hpub & Ht' & ->).
  destruct (publish_warning_cause _ _ _ _ _ _ Hpub _ _ _ Ht')
    as (pre2 & out & stderr & e & ->).
  rewrite !app_comm_cons, app_assoc.
  eexists _, out, stderr, e. reflexivity.
Qed.

(** X7.  A warning about a skipped directory always names an entry of
    the listing that is a directory. *)
Theorem skip_warning_names_a_listed_directory :
  forall W (sys : Sys W) (sv : Semver) (std : Std) (w : W) pre post name,
    run_trace (main sys sv std w)
    = pre ++ EvLog (SkippingDir name) :: post ->
    exists entries rest entry,
      run_trace (main sys sv std w)
      = EvReadDir (ref_dir (Getenv sys "GITHUB_REF_NAME" w)) entries None
        :: rest /\
      In entry entries /\ IsDir entry = true /\ Name entry = name.
Proof.
  intros W sys sv std w pre post name Ht.
  pose proof (main_sound sys sv std w) as Hrun.
  assert (In (EvLog (SkippingDir name)) (run_trace (main sys sv std w)))
    as Hin by (rewrite Ht; apply in_elt).
  clear Ht.
  destruct Hrun as [H|H1 H2|H1 H2 H3|entries e H1 H2 H3
                    |entries out stderr e H1 H2 H3
                    |entries out stderr o t H1 H2 H3 Hpub];
    try contradiction.
  - destruct Hin as [Hin|[]]. discriminate Hin.
  - destruct Hin as [Hin|Hin]; [discriminate Hin|].
    apply in_app_or in Hin as [Hin|[Hin|[]]]; [|discriminate Hin].
    apply in_skipped in Hin as (entry & Hentry & Hdir & Hname).
    injection Hname as ->. now eexists entries, _, entry.
  - destruct Hin as [Hin|Hin]; [discriminate Hin|].
    apply in_app_or in Hin as [Hin|[Hin|Hin]]; [|discriminate Hin|].
    + apply in_skipped in Hin as (entry & Hentry & Hdir & Hname).
      injection Hname as ->. now eexists entries, _, entry.
    + apply publish_loop_events in Hpub. rewrite Forall_forall in Hpub.
      destruct (Hpub _ Hin).
Qed.

Lemma prefix_length {A} (l1 l2 : list A) : prefix l1 l2 -> length l1 <= length l2.
Proof. intros [k ->]. rewrite length_app. lia. Qed.

Lemma prefix_In {A} (l1 l2 : list A) x : prefix l1 l2 -> In x l1 -> In x l2.
Proof. intros [k ->] H. apply in_or_app. now left. Qed.

(** X8.  Whatever happens, a run starts at most six subprocesses, all
    of them [git] or [gh] and the first of them [git show-ref --hash]
    on the reference name, and it lists no directory but the one the
    reference name gives, and that one at most once. *)
Theorem run_stays_within_its_plan :
  forall W (sys : Sys W) (sv : Semver) (std : Std) (w : W),
    let t := run_trace (main sys sv std w) in
    let refName := Getenv sys "GITHUB_REF_NAME" w in
    length (execs t) <= 6 /\
    (forall name arg, In (name, arg) (execs t) -> name = "git" \/ name = "gh") /\
    (execs t = [] \/
     exists rest, execs t = ("git", ["show-ref"; "--hash"; refName]) :: rest) /\
    (listed_dirs t = [] \/ listed_dirs t = [ref_dir refName]).
Proof.
  intros W sys sv std w t refName.
  pose proof (main_sound sys sv std w) as Hrun. fold t refName in Hrun.
  destruct (main_execs _ _ _ _ _ Hrun) as (out & entries & Hpre & _ & _).
  split; [apply (prefix_length _ _ Hpre)|]. split; [|split].
  - intros name arg Hin. apply (prefix_In _ _ _ Hpre) in Hin. cbn in Hin.
    destruct Hin as [H|[H|[H|[H|[H|[H|[]]]]]]]; injection H as <- _; auto.
  - destruct Hpre as [k Hk]. destruct (execs t) as [|cmd rest]; [now left|].
    right. exists rest. cbn in Hk. now injection Hk as <- _.
  - clear Hpre.
    destruct Hrun as [H|H1 H2|H1 H2 H3|entries0 e H1 H2 H3
                      |entries0 out0 stderr e H1 H2 H3
                      |entries0 out0 stderr o t0 H1 H2 H3 Hpub].
    1-3: now left.
    + now right.
    + right.
      change (EvReadDir (ref_dir refName) entries0 None :: skipped entries0 ++
              [EvExec "git" ["show-ref"; "--hash"; refName] out0 stderr
                 (Some e)])
        with ([EvReadDir (ref_dir refName) entries0 None] ++ skipped entries0
              ++ [EvExec "git" ["show-ref"; "--hash"; refName] out0 stderr
                    (Some e)]).
      now rewrite !listed_dirs_app, listed_dirs_skipped.
    + right.
      change (EvReadDir (ref_dir refName) entries0 None :: skipped entries0 ++
              EvExec "git" ["show-ref"; "--hash"; refName] out0 stderr None
              :: t0)
        with ([EvReadDir (ref_dir refName) entries0 None] ++ skipped entries0
              ++ [EvExec "git" ["show-ref"; "--hash"; refName] out0 stderr
                    None] ++ t0).
      rewrite !listed_dirs_app, listed_dirs_skipped.
      now rewrite (listed_dirs_loop t0 (publish_loop_events _ _ _ _ _ _ Hpub)).
Qed.

(** X9.  A run never ends with status 1 without a cause one can read
    off its trace: either nothing has run and the message is about the
    reference name, or the last event is a listing, a [git] call or a
    creation that failed, and the message wraps the error of that
    event, with the standard error for a subprocess. *)
Theorem fatal_exit_names_the_last_failure :
  forall W (sys : Sys W) (sv : Semver) (std : Std) (w : W) msg,
    run_outcome (main sys sv std w) = Fatal msg ->
    let t := run_trace (main sys sv std w) in
    let refName := Getenv sys "GITHUB_REF_NAME" w in
    (t = [] /\
     (msg = MissingEnvVar \/ msg = InvalidTagName refName \/
      msg = InvalidVersion (ref_version refName))) \/
    (exists entries e,
        t = [EvReadDir (ref_dir refName) entries (Some e)] /\
        msg = ListFiles (ReadDirError e)) \/
    (exists pre out stderr e,
        t = pre ++ [EvExec "git" ["show-ref"; "--hash"; refName]
                      out stderr (Some e)] /\
        msg = GetHash (GitShowRefError (CmdOutputError e stderr))) \/
    (exists pre target tag files out stderr e,
        t = pre ++ [EvExec "gh" (create_args target tag files)
                      out stderr (Some e)] /\
        msg = CreateGitHubRelease tag
                (GhReleaseCreateError (create_args target tag files)
                   (CmdOutputError e stderr))).
Proof.
  intros W sys sv std w msg Hmsg t refName.
  pose proof (main_sound sys sv std w) as Hrun. fold t refName in Hrun.
  rewrite Hmsg in Hrun.
  remember (Fatal msg) as o eqn:Ho.
  destruct Hrun as [H|H1 H2|H1 H2 H3|entries e H1 H2 H3
                    |entries out stderr e H1 H2 H3
                    |entries out stderr o t0 H1 H2 H3 Hpub].
  1-3: injection Ho as <-; left; auto.
  - injection Ho as <-. right; left. now exists entries, e.
  - injection Ho as <-. right; right; left.
    exists (EvReadDir (ref_dir refName) entries None :: skipped entries),
      out, stderr, e.
    split; reflexivity.
  - right; right; right.
    destruct (publish_fatal_cause _ _ _ _ _ _ Hpub msg Ho)
      as (pre & tag & out1 & stderr1 & e1 & -> & ->).
    exists (EvReadDir (ref_dir refName) entries None :: skipped entries ++
            EvExec "git" ["show-ref"; "--hash"; refName] out stderr None
            :: pre),
      (TrimSpace std out), tag, (assets std (ref_dir refName) entries),
      out1, stderr1, e1.
    split; [|reflexivity].
    cbn [app]. f_equal. now rewrite <- app_assoc.
Qed.

Lemma filter_split_length {A} (p : A -> bool) l :
  length (filter (fun x => negb (p x)) l) + length (filter p l) = length l.
Proof.
  induction l as [|x l IH]; [reflexivity|].
  cbn. destruct (p x); cbn; lia.
Qed.

(** X11.  [ghRelease] never ends the process and reports only the
    creation: it runs the delete first if asked to, then the creation
    in every case, and it returns an error exactly when the creation
    failed, whatever the delete did; the error carries the arguments
    and the standard error of the creation. *)
Theorem ghRelease_reports_only_the_creation :
  forall W (sys : Sys W) (std : Std) (w : W) tag target del files,
    let r := ghRelease sys std tag target del files w in
    exists d out stderr err,
      run_trace r
      = d ++ [EvExec "gh" (create_args target tag files) out stderr err] /\
      execs d = (if del then [("gh", delete_args tag)] else []) /\
      length (warnings d) <= 1 /\
      listed_dirs (run_trace r) = [] /\
      run_outcome r
      = Ret match err with
            | Some e =>
                Some (GhReleaseCreateError (create_args target tag files)
                        (CmdOutputError e stderr))
            | None => None
            end.
Proof.
  intros W sys std w tag target del files r.
  destruct (ghRelease_run sys std tag target del files w)
    as (d & out & stderr & err & w' & Hd & Hrun).
  unfold r. rewrite Hrun. exists d, out, stderr, err.
  cbn [run_trace run_outcome fst snd].
  split; [reflexivity|]. split; [exact (pre_delete_execs _ _ _ Hd)|].
  rewrite listed_dirs_app.
  destruct Hd; cbn; repeat split; lia.
Qed.

(* ================================================================= *)
(** ** The stages at work on the small world *)

Lemma gh_only_after_resolution_witness :
  run_trace (main Hub.sys golang_semver Hub.std Hub.widgets)
  = firstn 3 (run_trace (Hub.run Hub.widgets)) ++
    EvExec "gh" (delete_args "widgets/v2") EmptyString "release not found"
      Hub.exit_status_1
    :: skipn 4 (run_trace (Hub.run Hub.widgets)) /\
  IsValid golang_semver
    (ref_version (Getenv Hub.sys "GITHUB_REF_NAME" Hub.widgets)) = true.
Proof.
  assert (run_trace (main Hub.sys golang_semver Hub.std Hub.widgets)
          = firstn 3 (run_trace (Hub.run Hub.widgets)) ++
            EvExec "gh" (delete_args "widgets/v2") EmptyString
              "release not found" Hub.exit_status_1
            :: skipn 4 (run_trace (Hub.run Hub.widgets)))
    as Ht by (vm_compute; reflexivity).
  split; [exact Ht|].
  exact (proj1 (proj2 (proj2 (gh_only_after_resolution
                                Hub.hub Hub.sys golang_semver Hub.std
                                Hub.widgets _ _ _ _ _ _ Ht)))).
Defined.

Lemma listing_failure_ends_run_witness :
  run_trace (main Hub.sys golang_semver Hub.std Hub.no_component)
  = [] ++ EvReadDir EmptyString []
            (Some (External "no such file or directory")) :: [] /\
  exit_code (run_outcome (main Hub.sys golang_semver Hub.std Hub.no_component))
  = 1 /\
  execs (run_trace (main Hub.sys golang_semver Hub.std Hub.no_component)) = [].
Proof.
  assert (run_trace (main Hub.sys golang_semver Hub.std Hub.no_component)
          = [] ++ EvReadDir EmptyString []
                    (Some (External "no such file or directory")) :: [])
    as Ht by (vm_compute; reflexivity).
  split; [exact Ht|].
  exact (proj2 (proj2 (proj2 (proj2 (listing_failure_ends_run
                                       Hub.hub Hub.sys golang_semver Hub.std
                                       Hub.no_component _ _ _ _ _ Ht))))).
Defined.

Lemma commit_failure_ends_run_witness :
  run_trace (main Hub.sys golang_semver Hub.std widgets_untagged)
  = firstn 2 (run_trace (main Hub.sys golang_semver Hub.std widgets_untagged))
    ++ EvExec "git" ["show-ref"; "--hash"; "widgets/v2.3.1"]
         EmptyString EmptyString Hub.exit_status_1 :: [] /\
  exit_code (run_outcome (main Hub.sys golang_semver Hub.std widgets_untagged))
  = 1 /\
  gh_calls (run_trace (main Hub.sys golang_semver Hub.std widgets_untagged))
  = [].
Proof.
  assert (run_trace (main Hub.sys golang_semver Hub.std widgets_untagged)
          = firstn 2 (run_trace
                        (main Hub.sys golang_semver Hub.std widgets_untagged))
            ++ EvExec "git" ["show-ref"; "--hash"; "widgets/v2.3.1"]
                 EmptyString EmptyString Hub.exit_status_1 :: [])
    as Ht by (vm_compute; reflexivity).
  split; [exact Ht|].
  exact (proj2 (proj2 (proj2 (proj2 (commit_failure_ends_run
                                       Hub.hub Hub.sys golang_semver Hub.std
                                       widgets_untagged _ _ _ _ _ _ Ht))))).
Defined.

Lemma creations_share_the_listed_files_witness :
  run_trace (main Hub.sys golang_semver Hub.std Hub.widgets)
  = EvReadDir "widgets"
      [ {| Name := "a.tar.gz"; IsDir := false |};
        {| Name := "b.tar.gz"; IsDir := false |};
        {| Name := "docs"; IsDir := true |} ] None
    :: tl (run_trace (Hub.run Hub.widgets)) /\
  Forall (fun operands => operands = ["widgets/a.tar.gz"; "widgets/b.tar.gz"])
    (create_files (run_trace (main Hub.sys golang_semver Hub.std Hub.widgets))).
Proof.
  assert (run_trace (main Hub.sys golang_semver Hub.std Hub.widgets)
          = EvReadDir "widgets"
              [ {| Name := "a.tar.gz"; IsDir := false |};
                {| Name := "b.tar.gz"; IsDir := false |};
                {| Name := "docs"; IsDir := true |} ] None
            :: tl (run_trace (Hub.run Hub.widgets)))
    as Ht by (vm_compute; reflexivity).
  split; [exact Ht|].
  exact (proj1 (proj2 (proj2 (creations_share_the_listed_files
                                Hub.hub Hub.sys golang_semver Hub.std
                                Hub.widgets _ _ _ _ Ht)))).
Defined.

Lemma exact_tag_is_the_reference_name_witness :
  length (strings.Split (Getenv Hub.sys "GITHUB_REF_NAME" Hub.widgets) "/") = 2
  /\ tag_of (ref_dir (Getenv Hub.sys "GITHUB_REF_NAME" Hub.widgets))
       (ref_version (Getenv Hub.sys "GITHUB_REF_NAME" Hub.widgets))
     = "widgets/v2.3.1".
Proof.
  split; [reflexivity|].
  exact (proj1 (proj2 (proj2 (exact_tag_is_the_reference_name
                                Hub.hub Hub.sys golang_semver Hub.std
                                Hub.widgets eq_refl)))).
Defined.

Lemma delete_warning_follows_failed_delete_witness :
  run_trace (main Hub.sys golang_semver Hub.std Hub.widgets)
  = firstn 4 (run_trace (Hub.run Hub.widgets)) ++
    EvLog (CouldNotDeleteRelease "widgets/v2")
    :: skipn 5 (run_trace (Hub.run Hub.widgets)) /\
  exists pre' out stderr e,
    firstn 4 (run_trace (Hub.run Hub.widgets))
    = pre' ++ [EvExec "gh" (delete_args "widgets/v2") out stderr (Some e)].
Proof.
  assert (run_trace (main Hub.sys golang_semver Hub.std Hub.widgets)
          = firstn 4 (run_trace (Hub.run Hub.widgets)) ++
            EvLog (CouldNotDeleteRelease "widgets/v2")
            :: skipn 5 (run_trace (Hub.run Hub.widgets)))
    as Ht by (vm_compute; reflexivity).
  split; [exact Ht|].
  exact (delete_warning_follows_failed_delete
           Hub.hub Hub.sys golang_semver Hub.std Hub.widgets _ _ _ Ht).
Defined.

Lemma skip_warning_names_a_listed_directory_witness :
  run_trace (main Hub.sys golang_semver Hub.std Hub.widgets)
  = firstn 1 (run_trace (Hub.run Hub.widgets)) ++
    EvLog (SkippingDir "docs")
    :: skipn 2 (run_trace (Hub.run Hub.widgets)) /\
  exists entries rest entry,
    run_trace (main Hub.sys golang_semver Hub.std Hub.widgets)
    = EvReadDir (ref_dir (Getenv Hub.sys "GITHUB_REF_NAME" Hub.widgets))
        entries None :: rest /\
    In entry entries /\ IsDir entry = true /\ Name entry = "docs".
Proof.
  assert (run_trace (main Hub.sys golang_semver Hub.std Hub.widgets)
          = firstn 1 (run_trace (Hub.run Hub.widgets)) ++
            EvLog (SkippingDir "docs")
            :: skipn 2 (run_trace (Hub.run Hub.widgets)))
    as Ht by (vm_compute; reflexivity).
  split; [exact Ht|].
  exact (skip_warning_names_a_listed_directory
           Hub.hub Hub.sys golang_semver Hub.std Hub.widgets _ _ _ Ht).
Defined.

Lemma fatal_exit_names_the_last_failure_witness :
  run_outcome (main Hub.sys golang_semver Hub.std Hub.widgets_locked)
  = Fatal (CreateGitHubRelease "widgets/v2.3"
             (GhReleaseCreateError
                (create_args "3f2a9c1" "widgets/v2.3"
                   ["widgets/a.tar.gz"; "widgets/b.tar.gz"])
                (CmdOutputError (External "exit status 1")
                   "a release with the same tag name already exists"))) /\
  exists pre target tag files out stderr e,
    run_trace (main Hub.sys golang_semver Hub.std Hub.widgets_locked)
    = pre ++ [EvExec "gh" (create_args target tag files) out stderr (Some e)].
Proof.
  assert (run_outcome (main Hub.sys golang_semver Hub.std Hub.widgets_locked)
          = Fatal (CreateGitHubRelease "widgets/v2.3"
                     (GhReleaseCreateError
                        (create_args "3f2a9c1" "widgets/v2.3"
                           ["widgets/a.tar.gz"; "widgets/b.tar.gz"])
                        (CmdOutputError (External "exit status 1")
                           "a release with the same tag name already exists"))))
    as Ho by (vm_compute; reflexivity).
  split; [exact Ho|].
  destruct (fatal_exit_names_the_last_failure
              Hub.hub Hub.sys golang_semver Hub.std Hub.widgets_locked _ Ho)
    as [[_ [H|[H|H]]]|[(entries & e & _ & H)
                      |[(pre & out & stderr & e & _ & H)
                       |(pre & target & tag & files & out & stderr & e
                         & Ht & _)]]];
    try discriminate H.
  now exists pre, target, tag, files, out, stderr, e.
Defined.


(* ================================================================= *)
(** ** Every event of a run is an answer of the outside *)

Section Genuine.

Context {W : Type}.
Variable sys : Sys W.
Variable sv : Semver.
Variable std : Std.

Lemma bind_genuine {A B} (m : M W A) (f : A -> M W B) :
  (forall w, Forall (genuine sys) (run_trace (m w))) ->
  (forall a w, Forall (genuine sys) (run_trace (f a w))) ->
  forall w, Forall (genuine sys) (run_trace (bind m f w)).
Proof.
  intros Hm Hf w. unfold bind. specialize (Hm w).
  destruct (m w) as [[[a|msg] t] w1]; [|exact Hm].
  specialize (Hf a w1). destruct (f a w1) as [[o t'] w2].
  apply Forall_app. now split.
Qed.

Lemma execCmd_genuine name arg w :
  Forall (genuine sys) (run_trace (execCmd sys std name arg w)).
Proof.
  rewrite execCmd_run.
  destruct (Output sys name arg w) as [[[out stderr] err] w'] eqn:Hout.
  repeat constructor. now exists w, w'.
Qed.

Lemma gitHash_genuine ref w :
  Forall (genuine sys) (run_trace (gitHash sys std ref w)).
Proof.
  rewrite gitHash_run.
  destruct (Output sys "git" _ w) as [[[out stderr] err] w'] eqn:Hout.
  repeat constructor. now exists w, w'.
Qed.

Lemma skipped_genuine entries : Forall (genuine sys) (skipped entries).
Proof.
  unfold skipped. induction (filter IsDir entries); cbn; constructor;
    [exact I|assumption].
Qed.

Lemma readDir_genuine dir w :
  Forall (genuine sys) (run_trace (readDir sys std dir w)).
Proof.
  rewrite readDir_run.
  destruct (ReadDir sys dir w) as [[entries err] w'] eqn:Hlist.
  destruct err as [e|]; cbn.
  - repeat constructor. now exists w, w'.
  - constructor; [now exists w, w'|apply skipped_genuine].
Qed.

Lemma ghRelease_genuine tag target del files w :
  Forall (genuine sys) (run_trace (ghRelease sys std tag target del files w)).
Proof.
  revert w. unfold ghRelease. apply bind_genuine.
  - destruct del; [|intros w; constructor].
    apply bind_genuine; [apply execCmd_genuine|].
    intros [s [e|]] w; repeat constructor.
  - intros _. apply bind_genuine; [apply execCmd_genuine|].
    intros [s [e|]] w; constructor.
Qed.

Lemma main_range_genuine dir hash files args : forall w,
  Forall (genuine sys) (run_trace (main_range sys std dir hash files args w)).
Proof.
  induction args as [|arg rest IH]; [intros w; constructor|].
  cbn [main_range]. apply bind_genuine; [apply ghRelease_genuine|].
  intros [e|] w; [constructor|apply IH].
Qed.

Theorem main_genuine w :
  Forall (genuine sys) (run_trace (main sys sv std w)).
Proof.
  revert w. unfold main. apply bind_genuine; [intros w; constructor|].
  intros refName w.
  destruct (String.eqb refName EmptyString); [constructor|].
  destruct (negb _); [constructor|].
  destruct (negb _); [constructor|].
  revert w. apply bind_genuine; [apply readDir_genuine|].
  intros [files [e|]] w; [constructor|].
  revert w. apply bind_genuine; [apply gitHash_genuine|].
  intros [hash [e|]] w; [constructor|].
  apply main_range_genuine.
Qed.

End Genuine.

(* ================================================================= *)
(** ** Runs in a world that answers well *)

Lemma gh_calls_app a b : gh_calls (a ++ b) = gh_calls a ++ gh_calls b.
Proof. unfold gh_calls. now rewrite execs_app, flat_map_app. Qed.

Lemma create_targets_app a b :
  create_targets (a ++ b) = create_targets a ++ create_targets b.
Proof. unfold create_targets. now rewrite execs_app, flat_map_app. Qed.

Lemma git_calls_app a b : git_calls (a ++ b) = git_calls a ++ git_calls b.
Proof. apply flat_map_app. Qed.

Lemma delete_warnings_app a b :
  delete_warnings (a ++ b) = delete_warnings a ++ delete_warnings b.
Proof. apply flat_map_app. Qed.

Lemma delete_warnings_skipped entries : delete_warnings (skipped entries) = [].
Proof.
  unfold skipped, delete_warnings.
  induction (filter IsDir entries) as [|e l IH]; [reflexivity|exact IH].
Qed.

Section Cooperative.

Context {W : Type}.
Variable sys : Sys W.
Variable sv : Semver.
Variable std : Std.

Lemma no_failed_listing dir entries e :
  listing_ok sys dir -> ~ genuine sys (EvReadDir dir entries (Some e)).
Proof.
  intros Hok (w & w' & Hw). specialize (Hok w). now rewrite Hw in Hok.
Qed.

Lemma no_failed_git refName out stderr e :
  git_ok sys refName ->
  ~ genuine sys (EvExec "git" ["show-ref"; "--hash"; refName] out stderr
                   (Some e)).
Proof.
  intros Hok (w & w' & Hw). specialize (Hok w). unfold exec_err in Hok.
  now rewrite Hw in Hok.
Qed.

Lemma no_failed_create target tag files out stderr e :
  creates_ok sys ->
  ~ genuine sys (EvExec "gh" (create_args target tag files) out stderr
                   (Some e)).
Proof.
  intros Hok (w & w' & Hw). specialize (Hok w target tag files).
  unfold exec_err in Hok. now rewrite Hw in Hok.
Qed.

Lemma no_successful_delete tag out stderr :
  deletes_fail sys ->
  ~ genuine sys (EvExec "gh" (delete_args tag) out stderr None).
Proof.
  intros Hfail (w & w' & Hw). apply (Hfail w tag). unfold exec_err.
  now rewrite Hw.
Qed.

Lemma no_failed_delete tag out stderr e :
  deletes_ok sys ->
  ~ genuine sys (EvExec "gh" (delete_args tag) out stderr (Some e)).
Proof.
  intros Hok (w & w' & Hw). specialize (Hok w tag). unfold exec_err in Hok.
  now rewrite Hw in Hok.
Qed.

(** A valid reference name whose directory can be listed brings the run
    to the [git] call, and to the loop when [git] succeeds. *)
Lemma run_reaches_git refName o t :
  main_run sv std refName o t -> Forall (genuine sys) t ->
  refName <> EmptyString ->
  length (strings.Split refName "/") = 2 ->
  IsValid sv (ref_version refName) = true ->
  listing_ok sys (ref_dir refName) ->
  exists entries out stderr err t',
    t = EvReadDir (ref_dir refName) entries None :: skipped entries ++
        EvExec "git" ["show-ref"; "--hash"; refName] out stderr err :: t' /\
    genuine sys (EvExec "git" ["show-ref"; "--hash"; refName] out stderr err)
    /\
    match err with
    | Some e =>
        t' = [] /\
        o = Fatal (GetHash (GitShowRefError (CmdOutputError e stderr)))
    | None =>
        publish_run (ref_dir refName) (TrimSpace std out)
          (assets std (ref_dir refName) entries)
          (releases sv (ref_version refName)) o t' /\
        Forall (genuine sys) t'
    end.
Proof.
  intros Hrun Hgen Hne Hlen Hvalid Hlist.
  destruct Hrun as [H|H1 H2|H1 H2 H3|entries e H1 H2 H3
                    |entries out stderr e H1 H2 H3
                    |entries out stderr o t H1 H2 H3 Hpub];
    try contradiction; try congruence.
  - inversion Hgen as [|? ? He _]. now apply no_failed_listing in He.
  - exists entries, out, stderr, (Some e), [].
    inversion Hgen as [|? ? _ Hrest]. apply Forall_app in Hrest as [_ Hrest].
    inversion Hrest; subst. now repeat split.
  - exists entries, out, stderr, None, t.
    inversion Hgen as [|? ? _ Hrest]. apply Forall_app in Hrest as [_ Hrest].
    inversion Hrest; subst. now repeat split.
Qed.

Lemma run_reaches_loop refName o t :
  main_run sv std refName o t -> Forall (genuine sys) t ->
  refName <> EmptyString ->
  length (strings.Split refName "/") = 2 ->
  IsValid sv (ref_version refName) = true ->
  listing_ok sys (ref_dir refName) ->
  git_ok sys refName ->
  exists entries out stderr t',
    t = EvReadDir (ref_dir refName) entries None :: skipped entries ++
        EvExec "git" ["show-ref"; "--hash"; refName] out stderr None :: t' /\
    publish_run (ref_dir refName) (TrimSpace std out)
      (assets std (ref_dir refName) entries)
      (releases sv (ref_version refName)) o t' /\
    Forall (genuine sys) t'.
Proof.
  intros Hrun Hgen Hne Hlen Hvalid Hlist Hgit.
  destruct (run_reaches_git _ _ _ Hrun Hgen Hne Hlen Hvalid Hlist)
    as (entries & out & stderr & err & t' & -> & Hev & Hrest).
  destruct err as [e|]; [now apply no_failed_git in Hev|].
  now exists entries, out, stderr, t'.
Qed.

(** When every creation succeeds the loop goes through. *)
Lemma publish_completes dir hash files args o t :
  publish_run dir hash files args o t -> Forall (genuine sys) t ->
  creates_ok sys -> o = Ret tt.
Proof.
  intros Hrun Hgen Hok.
  induction Hrun as [|arg rest d out stderr e Hd
                     |arg rest d out stderr o t Hd Hrun IH].
  - reflexivity.
  - apply Forall_app in Hgen as [_ Hgen]. inversion Hgen as [|? ? He _].
    now apply no_failed_create in He.
  - apply Forall_app in Hgen as [_ Hgen]. inversion Hgen as [|? ? _ Ht].
    now apply IH.
Qed.

(** The warnings of a loop that went through: one for each entry with
    a delete when deletes fail, none when they succeed. *)
Lemma publish_delete_warnings dir hash files args t :
  publish_run dir hash files args (Ret tt) t -> Forall (genuine sys) t ->
  (deletes_fail sys ->
   delete_warnings t
   = map (fun arg => tag_of dir (version arg)) (filter delete args)) /\
  (deletes_ok sys -> delete_warnings t = []).
Proof.
  intros Hrun. remember (Ret tt) as o eqn:Ho.
  induction Hrun as [|arg rest d out stderr e Hd
                     |arg rest d out stderr o t Hd Hrun IH]; intros Hgen.
  - now split.
  - discriminate Ho.
  - apply Forall_app in Hgen as [Hgd Hgen].
    inversion Hgen as [|? ? _ Ht]; subst.
    destruct (IH eq_refl Ht) as [IHfail IHok].
    rewrite delete_warnings_app. cbn [filter].
    change (delete_warnings (?e :: t)) with (delete_warning e ++ delete_warnings t).
    cbn [delete_warning app].
    destruct Hd as [|out0 stderr0|out0 stderr0 e0]; cbn [map app delete_warnings
      flat_map delete_warning].
    + now split.
    + inversion Hgd as [|? ? He _]. split.
      * intros Hfail. now apply no_successful_delete in He.
      * exact IHok.
    + inversion Hgd as [|? ? He _]. split.
      * intros Hfail. now rewrite (IHfail Hfail).
      * intros Hok. now apply no_failed_delete in He.
Qed.


End Cooperative.

(* ================================================================= *)
(** ** The Release Publisher, again *)




Lemma calm_world (s : Calm.setting) :
  (forall dir, listing_ok (Calm.sys s) dir) /\
  (forall refName, git_ok (Calm.sys s) refName) /\
  creates_ok (Calm.sys s) /\
  deletes_fail (Calm.sys s).
Proof.
  repeat split.
  - intros w tag H. discriminate H.
Qed.


Lemma gh_calls_plan sv refName hash files :
  flat_map gh_call_of (plan sv refName hash files)
  = [ Delete (tag_of (ref_dir refName) (Major sv (ref_version refName)));
      Create (tag_of (ref_dir refName) (Major sv (ref_version refName)));
      Delete (tag_of (ref_dir refName) (MajorMinor sv (ref_version refName)));
      Create (tag_of (ref_dir refName) (MajorMinor sv (ref_version refName)));
      Create (tag_of (ref_dir refName) (ref_version refName)) ].
Proof. reflexivity. Qed.

(** What comes before the loop holds no call of [gh], no creation and
    no warning about a delete. *)
Lemma before_the_loop dir entries refName out stderr err t :
  gh_calls (EvReadDir dir entries None :: skipped entries ++
            EvExec "git" ["show-ref"; "--hash"; refName] out stderr err :: t)
  = gh_calls t /\
  create_targets (EvReadDir dir entries None :: skipped entries ++
                  EvExec "git" ["show-ref"; "--hash"; refName] out stderr err
                  :: t)
  = create_targets t /\
  delete_warnings (EvReadDir dir entries None :: skipped entries ++
                   EvExec "git" ["show-ref"; "--hash"; refName] out stderr err
                   :: t)
  = delete_warnings t /\
  git_calls (EvReadDir dir entries None :: skipped entries ++
             EvExec "git" ["show-ref"; "--hash"; refName] out stderr err :: t)
  = (["show-ref"; "--hash"; refName], out) :: git_calls t.
Proof.
  change (EvReadDir dir entries None :: skipped entries ++
          EvExec "git" ["show-ref"; "--hash"; refName] out stderr err :: t)
    with ([EvReadDir dir entries None] ++ skipped entries ++
          [EvExec "git" ["show-ref"; "--hash"; refName] out stderr err] ++ t).
  rewrite !gh_calls_app, !create_targets_app, !delete_warnings_app,
    !git_calls_app, delete_warnings_skipped, git_calls_skipped.
  unfold gh_calls, create_targets. rewrite execs_skipped. now repeat split.
Qed.

(** C4.  Whatever a delete returns, the creation for the same tag is
    the next subprocess; when the delete failed, one warning is logged
    in between.  A run in which three creations succeed ends with
    status 0, and a run that ends with status 0 has created the three
    releases.  So for a valid reference name, in a world where the
    directory can be listed, [git] resolves the name and every creation
    succeeds, the run ends with status 0 after the five [gh] calls,
    whatever the deletes return: when all deletes fail, with one
    warning for each of the two alias tags, and when they succeed,
    with none. *)
Theorem failed_delete_is_not_fatal :
  forall W (sys : Sys W) (sv : Semver) (std : Std) (w : W),
    let r := main sys sv std w in
    let refName := Getenv sys "GITHUB_REF_NAME" w in
    let dir := ref_dir refName in
    let version := ref_version refName in
    (forall pre post tag out stderr err,
        run_trace r
        = pre ++ EvExec "gh" (delete_args tag) out stderr err :: post ->
        exists target files out' stderr' err' post',
          post = match err with
                 | Some _ => [EvLog (CouldNotDeleteRelease tag)]
                 | None => []
                 end ++
                 EvExec "gh" (create_args target tag files) out' stderr' err'
                 :: post') /\
    (length (released_tags (run_trace r)) = 3 ->
     run_outcome r = Ret tt /\ exit_code (run_outcome r) = 0) /\
    (run_outcome r = Ret tt ->
     released_tags (run_trace r) = release_tags sv refName) /\
    (refName <> EmptyString ->
     length (strings.Split refName "/") = 2 ->
     IsValid sv version = true ->
     listing_ok sys dir -> git_ok sys refName -> creates_ok sys ->
     run_outcome r = Ret tt /\
     exit_code (run_outcome r) = 0 /\
     released_tags (run_trace r) = release_tags sv refName /\
     gh_calls (run_trace r)
     = [ Delete (tag_of dir (Major sv version));
         Create (tag_of dir (Major sv version));
         Delete (tag_of dir (MajorMinor sv version));
         Create (tag_of dir (MajorMinor sv version));
         Create (tag_of dir version) ] /\
     (deletes_fail sys ->
      delete_warnings (run_trace r)
      = [ tag_of dir (Major sv version);
          tag_of dir (MajorMinor sv version) ]) /\
     (deletes_ok sys -> delete_warnings (run_trace r) = [])).
Proof.
  intros W sys sv std w r refName dir version. split; [|split; [|split]].
  - intros pre post tag out stderr err Ht.
    destruct (main_gh_event sv std _ _ _ pre
                (EvExec "gh" (delete_args tag) out stderr err) post
                (main_sound sys sv std w) eq_refl Ht)
      as (entries & out0 & t' & pre' & Hpub & Ht').
    destruct (publish_after_delete _ _ _ _ _ _ Hpub _ _ _ _ _ _ Ht')
      as (out' & stderr' & err' & post' & ->).
    now exists (TrimSpace std out0), (assets std dir entries),
      out', stderr', err', post'.
  - intros Hlen.
    destruct (main_released _ _ _ _ _ (main_sound sys sv std w))
      as [[Ho _]|[_ Hlt]].
    + fold r in Ho. now rewrite Ho.
    + fold r in Hlt. lia.
  - intros Ho.
    destruct (main_released _ _ _ _ _ (main_sound sys sv std w))
      as [[_ Hrel]|[[msg Hmsg] _]].
    + exact Hrel.
    + fold r in Hmsg. congruence.
  - intros Hne Hlen Hvalid Hlist Hgit Hcreate.
    destruct (run_reaches_loop sys sv std _ _ _
                (main_sound sys sv std w) (main_genuine sys sv std w)
                Hne Hlen Hvalid Hlist Hgit)
      as (entries & out & stderr & t' & Ht & Hpub & Hgen).
    pose proof (publish_completes sys _ _ _ _ _ _ Hpub Hgen Hcreate) as Hok.
    fold r in Ht, Hok, Hpub.
    split; [exact Hok|]. split; [now rewrite Hok|].
    split.
    { destruct (main_released _ _ _ _ _ (main_sound sys sv std w))
        as [[_ Hrel]|[[msg Hmsg] _]]; [exact Hrel|].
      fold r in Hmsg. congruence. }
    split.
    { destruct (main_execs _ _ _ _ _ (main_sound sys sv std w))
        as (out1 & entries1 & _ & Hall & _).
      fold r in Hall. unfold gh_calls. rewrite (Hall Hok).
      apply gh_calls_plan. }
    rewrite Hok in Hpub.
    destruct (publish_delete_warnings sys _ _ _ _ _ Hpub Hgen)
      as [Hfail Hnone].
    rewrite Ht.
    rewrite (proj1 (proj2 (proj2 (before_the_loop _ _ _ _ _ _ _)))).
    split; [intros Hf; now rewrite (Hfail Hf)|exact Hnone].
Qed.

Lemma failed_delete_is_not_fatal_witness :
  listing_ok (Calm.sys Calm.widgets) "widgets" /\
  git_ok (Calm.sys Calm.widgets) "widgets/v2.3.1" /\
  creates_ok (Calm.sys Calm.widgets) /\
  deletes_fail (Calm.sys Calm.widgets) /\
  exit_code (run_outcome (main (Calm.sys Calm.widgets) golang_semver
                            Hub.std tt)) = 0 /\
  delete_warnings (run_trace (main (Calm.sys Calm.widgets) golang_semver
                                Hub.std tt))
  = ["widgets/v2"; "widgets/v2.3"].
Proof.
  destruct (calm_world Calm.widgets) as (Hlist & Hgit & Hcreate & Hfail).
  split; [apply Hlist|]. split; [apply Hgit|]. split; [exact Hcreate|].
  split; [exact Hfail|].
  destruct (proj2 (proj2 (proj2
             (failed_delete_is_not_fatal
                unit (Calm.sys Calm.widgets) golang_semver Hub.std tt))))
    as (_ & Hcode & _ & _ & Hwarn & _);
    [discriminate|reflexivity|reflexivity|apply Hlist|apply Hgit
    |exact Hcreate|].
  split; [exact Hcode|exact (Hwarn Hfail)].
Defined.




(* ================================================================= *)
(** ** The Commit Resolver, again *)




(* ================================================================= *)
(** ** The Asset Collector, again *)

Lemma warnings_skipped entries :
  warnings (skipped entries)
  = map (fun e => SkippingDir (Name e)) (filter IsDir entries).
Proof.
  unfold warnings, skipped.
  induction (filter IsDir entries) as [|e l IH]; [reflexivity|].
  cbn. now rewrite IH.
Qed.

(** X10.  [readDir] drops no entry in silence and makes nothing up:
    when the listing succeeds, every entry that is a directory is
    warned about and every other entry is returned as a file, every
    file returned and every warning logged comes from such an entry,
    and the files and the warnings together are as many as the
    entries; [readDir] lists the one directory and starts no
    subprocess. *)
Theorem readDir_accounts_for_every_entry :
  forall W (sys : Sys W) (std : Std) (dir : string) (w : W) entries w',
    ReadDir sys dir w = (entries, None, w') ->
    let r := readDir sys std dir w in
    exists files,
      run_outcome r = Ret (files, None) /\
      (forall entry, In entry entries ->
         if IsDir entry
         then In (SkippingDir (Name entry)) (warnings (run_trace r))
         else In (Join std dir (Name entry)) files) /\
      (forall file, In file files ->
         exists entry, In entry entries /\ IsDir entry = false /\
                       file = Join std dir (Name entry)) /\
      (forall warned, In warned (warnings (run_trace r)) ->
         exists entry, In entry entries /\ IsDir entry = true /\
                       warned = SkippingDir (Name entry)) /\
      length files + length (warnings (run_trace r)) = length entries /\
      listed_dirs (run_trace r) = [dir] /\
      execs (run_trace r) = [].
Proof.
  intros W sys std dir w entries w' Hlist r. unfold r.
  rewrite readDir_run, Hlist. cbn [run_outcome run_trace fst snd].
  exists (assets std dir entries). split; [reflexivity|].
  change (EvReadDir dir entries None :: skipped entries)
    with ([EvReadDir dir entries None] ++ skipped entries).
  assert (forall a b, warnings (a ++ b) = warnings a ++ warnings b) as Happ
      by (intros; apply flat_map_app).
  rewrite !Happ, listed_dirs_app, listed_dirs_skipped, execs_app,
    execs_skipped, warnings_skipped.
  cbn [warnings flat_map warning_of app listed_dirs listed_dir execs exec_of].
  unfold assets.
  split; [|split; [|split; [|split; [|now split]]]].
  - intros entry Hin. destruct (IsDir entry) eqn:Hdir.
    + apply in_map_iff. exists entry. split; [reflexivity|].
      apply filter_In. now split.
    + apply in_map_iff. exists entry. split; [reflexivity|].
      apply filter_In. split; [exact Hin|now rewrite Hdir].
  - intros file Hin. apply in_map_iff in Hin as (entry & <- & Hin).
    apply filter_In in Hin as [Hin Hdir]. apply negb_true_iff in Hdir.
    now exists entry.
  - intros warned Hin. apply in_map_iff in Hin as (entry & <- & Hin).
    apply filter_In in Hin as [Hin Hdir]. now exists entry.
  - rewrite !length_map. apply filter_split_length.
Qed.

Lemma readDir_accounts_for_every_entry_witness :
  ReadDir Hub.sys "widgets" Hub.widgets
  = ([ {| Name := "a.tar.gz"; IsDir := false |};
       {| Name := "b.tar.gz"; IsDir := false |};
       {| Name := "docs"; IsDir := true |} ], None, Hub.widgets) /\
  exists files,
    run_outcome (readDir Hub.sys Hub.std "widgets" Hub.widgets)
    = Ret (files, None) /\
    In (Join Hub.std "widgets" "a.tar.gz") files /\
    In (SkippingDir "docs")
       (warnings (run_trace (readDir Hub.sys Hub.std "widgets" Hub.widgets)))
    /\
    length files
    + length (warnings (run_trace (readDir Hub.sys Hub.std "widgets"
                                     Hub.widgets)))
    = 3.
Proof.
  split; [reflexivity|].
  destruct (readDir_accounts_for_every_entry
              Hub.hub Hub.sys Hub.std "widgets" Hub.widgets _ _ eq_refl)
    as (files & Hout & Hall & _ & _ & Hlen & _).
  exists files. split; [exact Hout|].
  split; [exact (Hall {| Name := "a.tar.gz"; IsDir := false |}
                   (or_introl eq_refl))|].
  split; [exact (Hall {| Name := "docs"; IsDir := true |}
                   (or_intror (or_intror (or_introl eq_refl))))|].
  exact Hlen.
Defined.
